(** * The natural-language trace query assistant of jaeger-ui

    A shallow embedding of [utils/ai-assistant/llm-client.ts],
    [utils/ai-assistant/query-parser.ts] and of the [handleSearch] callback of
    [components/SearchTracePage/AIAssistantSearch.tsx], with the properties of
    the subsystem that its specification states.

    Conventions.
    - A JavaScript string is modelled by a [string], read as the UTF-8 encoding
      of the text.  Every pattern and every JSON delimiter the program looks
      for is ASCII, and no byte of a multi-byte UTF-8 sequence is ASCII, so
      searching and splitting behave on the bytes as they do on code units.
    - A value obtained from [JSON.parse] is a [JSValue]; [undefined] is the
      [None] of an [option JSValue].
    - A thrown value is a [Thrown]; a computation that may throw returns a
      [Result].  The wording of the messages of errors raised by the engine
      itself ([SyntaxError], [TypeError]) is implementation-defined: the model
      fixes one wording for each and no property below depends on it.
    - The network is an oracle from requests to replies; the adapters run in a
      state monad that records every request sent and the time spent waiting. *)

From Stdlib Require Import ZArith Ascii String List Lia Bool Sorted.
From stdpp Require Import gmap strings list.

Local Open Scope string_scope.

(** ** Text *)

Module Text.

Definition dq : string := String (ascii_of_nat 34) "".
Definition nl : string := String (ascii_of_nat 10) "".

(** [quoted s] is [s] with every apostrophe replaced by a double quote; it is
    used to write down texts that contain double quotes. *)
Fixpoint quoted (s : string) : string :=
  match s with
  | "" => ""
  | String c r =>
      String (if Ascii.eqb c "'"%char then ascii_of_nat 34 else c) (quoted r)
  end.

(** [strip_prefix p s] is the rest of [s] after the literal [p], when [s]
    starts with [p]. *)
Fixpoint strip_prefix (p s : string) : option string :=
  match p, s with
  | "", _ => Some s
  | String a p', String b s' => if Ascii.eqb a b then strip_prefix p' s' else None
  | String _ _, "" => None
  end.

Definition starts_with (p s : string) : bool :=
  match strip_prefix p s with Some _ => true | None => false end.

(** [String.prototype.includes]. *)
Fixpoint includes (s sub : string) : bool :=
  starts_with sub s ||
  match s with
  | "" => false
  | String _ r => includes r sub
  end.

Definition is_empty (s : string) : bool :=
  match s with "" => true | _ => false end.

Fixpoint join (sep : string) (l : list string) : string :=
  match l with
  | [] => ""
  | [x] => x
  | x :: r => x +:+ sep +:+ join sep r
  end.

(** Decimal numeral of a natural number (array indices, counters). *)
Definition digit_char (d : N) : ascii := ascii_of_N (48 + d).

Fixpoint digits_of_pos (fuel : nat) (n : N) (acc : string) : string :=
  match fuel with
  | O => acc
  | S f =>
      let acc' := String (digit_char (n mod 10)) acc in
      if (n / 10 =? 0)%N then acc' else digits_of_pos f (n / 10)%N acc'
  end.

Definition decimal (n : N) : string :=
  digits_of_pos (S (N.to_nat (N.log2 n))) n "".

(** *** The two patterns of the response extractor *)

(** The tail [\n?```] of the fenced pattern, tried at the head of [s]. *)
Definition closes_fence (s : string) : bool :=
  starts_with (nl +:+ "```") s || starts_with "```" s.

(** The lazy group [([\s\S]*?)] followed by [\n?```]: the shortest prefix of
    [s] after which the closing fence matches. *)
Fixpoint lazy_capture (s : string) : option string :=
  if closes_fence s then Some ""
  else match s with
       | "" => None
       | String c r => option_map (String c) (lazy_capture r)
       end.

(** The pattern [```json\n?([\s\S]*?)\n?```] anchored at the head of [s].
    The greedy [\n?] first takes a newline when there is one and gives it back
    when the rest cannot match. *)
Definition match_fence_at (s : string) : option string :=
  match strip_prefix "```json" s with
  | None => None
  | Some r =>
      let greedy :=
        match strip_prefix nl r with
        | Some r' => lazy_capture r'
        | None => None
        end in
      match greedy with
      | Some c => Some c
      | None => lazy_capture r
      end
  end.

(** [content.match(/```json\n?([\s\S]*?)\n?```/)]: the first start position at
    which the pattern matches; the result is capture group 1. *)
Fixpoint match_fenced (s : string) : option string :=
  match match_fence_at s with
  | Some c => Some c
  | None =>
      match s with
      | "" => None
      | String _ r => match_fenced r
      end
  end.

(** The greedy [[\s\S]*\}]: the longest prefix of [s] that ends with a closing
    brace. *)
Fixpoint upto_last_brace (s : string) : option string :=
  match s with
  | "" => None
  | String c r =>
      match upto_last_brace r with
      | Some t => Some (String c t)
      | None => if Ascii.eqb c "}"%char then Some (String c "") else None
      end
  end.

(** [content.match(/\{[\s\S]*\}/)]: the first opening brace from which the
    pattern matches; the result is the whole match. *)
Fixpoint match_braces (s : string) : option string :=
  match s with
  | "" => None
  | String c r =>
      if Ascii.eqb c "{"%char then
        match upto_last_brace r with
        | Some t => Some (String c t)
        | None => match_braces r
        end
      else match_braces r
  end.

End Text.

(** ** Numbers

    A number read by [JSON.parse] is the binary64 value nearest to the decimal
    that the text denotes (ties to even).  The model keeps the decimal,
    [mant * 10 ^ exp10] with its sign, and computes from it what the program
    observes of the number: whether it is zero (it is then falsy), and the
    text that [Number::toString] gives for it. *)

Module Num.

Local Open Scope Z_scope.

Record t := mk { neg : bool; mant : Z; exp10 : Z }.

Definition of_Z (z : Z) : t := mk (z <? 0) (Z.abs z) 0.

(** A non-negative binary64 value: [B64Finite m q] is [m * 2 ^ q] with
    [0 < m < 2 ^ 53] and [-1074 <= q <= 971]. *)
Inductive binary64 := B64Zero | B64Inf | B64Finite (m q : Z).

(** [scale b n d k] is the fraction [(n / d) / b ^ k]. *)
Definition scale (b n d k : Z) : Z * Z :=
  if 0 <=? k then (n, d * b ^ k) else (n * b ^ (- k), d).

(** [b ^ k <= n / d]. *)
Definition pow_le (b n d k : Z) : bool :=
  let '(num, den) := scale b n d k in den <=? num.

(** The integer part of the binary logarithm of [n / d], for [0 < n], [0 < d]. *)
Definition ilog2 (n d : Z) : Z :=
  let e0 := Z.log2 n - Z.log2 d in
  if pow_le 2 n d e0 then e0 else e0 - 1.

(** Rounding of the fraction [n / d] to binary64, nearest with ties to even. *)
Definition round (n d : Z) : binary64 :=
  if n =? 0 then B64Zero
  else
    let q := Z.max (ilog2 n d - 52) (-1074) in
    let '(num, den) := scale 2 n d q in
    let m := num / den in
    let r := num mod den in
    let m1 := if (den <? 2 * r) || ((2 * r =? den) && Z.odd m) then m + 1 else m in
    let '(m2, q2) := if m1 =? 2 ^ 53 then (2 ^ 52, q + 1) else (m1, q) in
    if m2 =? 0 then B64Zero
    else if 971 <? q2 then B64Inf
    else B64Finite m2 q2.

Definition fraction (x : t) : Z * Z := scale 10 (mant x) 1 (- exp10 x).

Definition value (x : t) : binary64 :=
  let '(n, d) := fraction x in round n d.

Definition is_zero (x : t) : bool :=
  match value x with B64Zero => true | _ => false end.

Definition b64_eqb (a b : binary64) : bool :=
  match a, b with
  | B64Zero, B64Zero | B64Inf, B64Inf => true
  | B64Finite m q, B64Finite m' q' => (m =? m') && (q =? q')
  | _, _ => false
  end.

(** The integer part of the decimal logarithm of [n / d]. *)
Fixpoint climb (fuel : nat) (n d e : Z) : Z :=
  match fuel with
  | O => e
  | S f => if pow_le 10 n d (e + 1) then climb f n d (e + 1) else e
  end.

Definition ilog10 (n d : Z) : Z :=
  climb 8 n d ((Z.log2 n - Z.log2 d) * 30103 / 100000 - 3).

(** The digits of [Number::toString]: integers [s], [n], [k] with
    [10 ^ (k - 1) <= s < 10 ^ k], [s * 10 ^ (n - k)] rounding to the value,
    [k] as small as possible and, for that [k], [s * 10 ^ (n - k)] closest to
    the value.  [xn / xd] is the value itself. *)
Definition candidates (xn xd k n0 : Z) : list (Z * Z) :=
  let '(num, den) := scale 10 xn xd (n0 - k) in
  let lo := num / den in
  (lo, n0) :: (if lo + 1 <? 10 ^ k then [(lo + 1, n0)] else [(10 ^ (k - 1), n0 + 1)]).

Definition rounds_to (x : binary64) (k : Z) (c : Z * Z) : bool :=
  let '(num, den) := scale 10 (fst c) 1 (k - snd c) in
  b64_eqb (round num den) x.

(** Twice the distance from [s * 10 ^ (n - k)] to [xn / xd], over the common
    denominator of the two candidates of one [k]. *)
Definition distance (xn xd k : Z) (c : Z * Z) : Z * Z :=
  let '(num, den) := scale 10 (fst c) 1 (k - snd c) in
  (Z.abs (num * xd - xn * den), den * xd).

Definition closer (xn xd k : Z) (a b : Z * Z) : bool :=
  let '(an, ad) := distance xn xd k a in
  let '(bn, bd) := distance xn xd k b in
  (an * bd <? bn * ad) || ((an * bd =? bn * ad) && Z.even (fst a)).

Definition best (xn xd k : Z) (l : list (Z * Z)) : option (Z * Z) :=
  match l with
  | [] => None
  | [a] => Some a
  | a :: b :: _ => Some (if closer xn xd k a b then a else b)
  end.

Fixpoint shortest (fuel : nat) (x : binary64) (xn xd n0 k : Z) : Z * Z * Z :=
  match best xn xd k (filter (fun c => rounds_to x k c) (candidates xn xd k n0)) with
  | Some (s, n) => (s, n, k)
  | None =>
      match fuel with
      | O => (xn / xd, n0, k)
      | S f => shortest f x xn xd n0 (k + 1)
      end
  end.

Definition zeros (n : Z) : string :=
  string_of_list_ascii (repeat "0"%char (Z.to_nat n)).

Fixpoint split_at (n : nat) (s : string) : string * string :=
  match n, s with
  | S n', String c r => let '(a, b) := split_at n' r in (String c a, b)
  | _, _ => ("", s)
  end.

(** The layout rules of [Number::toString] for radix 10. *)
Definition layout (s n k : Z) : string :=
  let ds := Text.decimal (Z.to_N s) in
  if (k <=? n) && (n <=? 21) then ds +:+ zeros (n - k)
  else if (0 <? n) && (n <=? 21) then
    let '(a, b) := split_at (Z.to_nat n) ds in a +:+ "." +:+ b
  else if (-6 <? n) && (n <=? 0) then "0." +:+ zeros (- n) +:+ ds
  else
    let e := n - 1 in
    let ex := (if e <? 0 then "-" else "+") +:+ Text.decimal (Z.to_N (Z.abs e)) in
    if k =? 1 then ds +:+ "e" +:+ ex
    else let '(a, b) := split_at 1 ds in a +:+ "." +:+ b +:+ "e" +:+ ex.

Definition toString (x : t) : string :=
  match value x with
  | B64Zero => "0"
  | B64Inf => if neg x then "-Infinity" else "Infinity"
  | B64Finite m q =>
      let '(xn, xd) := scale 2 m 1 (- q) in
      let '(s, n, k) := shortest 17 (B64Finite m q) xn xd (ilog10 xn xd + 1) 1 in
      (if neg x then "-" else "") +:+ layout s n k
  end.

End Num.

(** ** Values, thrown values and results *)

#[warnings="-register-all"] Inductive JSValue :=
| JNull
| JBool (b : bool)
| JNumber (x : Num.t)
| JString (s : string)
| JArray (items : list JSValue)
| JObject (props : list (string * JSValue)).

(** A thrown value: an instance of [Error] (or of a subclass, told by its
    name) with its message, or any other value. *)
Inductive Thrown :=
| ThrownError (name message : string)
| ThrownValue (v : JSValue).

Definition Error (message : string) : Thrown := ThrownError "Error" message.
Definition TypeError (message : string) : Thrown := ThrownError "TypeError" message.
Definition SyntaxError (message : string) : Thrown := ThrownError "SyntaxError" message.

Inductive Result (A : Type) :=
| Ok (a : A)
| Err (e : Thrown).

Arguments Ok {A} a.
Arguments Err {A} e.

Definition is_Ok {A} (r : Result A) : bool :=
  match r with Ok _ => true | Err _ => false end.

#[global] Instance Result_ret : MRet Result := fun A a => Ok a.

#[global] Instance Result_bind : MBind Result := fun A B k r =>
  match r with
  | Ok a => k a
  | Err e => Err e
  end.

#[global] Instance Result_fmap : FMap Result := fun A B f r =>
  match r with
  | Ok a => Ok (f a)
  | Err e => Err e
  end.

(** ** The operations of the language that the program applies to values *)

Module JS.

(** Truthiness of a value that may be [undefined]. *)
Definition truthy (v : option JSValue) : bool :=
  match v with
  | None | Some JNull | Some (JBool false) => false
  | Some (JNumber x) => negb (Num.is_zero x)
  | Some (JString s) => negb (Text.is_empty s)
  | Some _ => true
  end.

(** [a || b], for a default [b] that is a value. *)
Definition or_else (a : option JSValue) (b : JSValue) : JSValue :=
  match a with
  | Some v => if truthy a then v else b
  | None => b
  end.

Fixpoint lookup_prop (props : list (string * JSValue)) (key : string) : option JSValue :=
  match props with
  | [] => None
  | (k, v) :: r => if String.eqb k key then Some v else lookup_prop r key
  end.

Definition digit_val (c : ascii) : option N :=
  let n := N_of_ascii c in
  if ((48 <=? n) && (n <=? 57))%N then Some (n - 48)%N else None.

Fixpoint read_all_digits (s : string) (acc : N) : option N :=
  match s with
  | "" => Some acc
  | String c r =>
      match digit_val c with
      | Some d => read_all_digits r (acc * 10 + d)%N
      | None => None
      end
  end.

(** The array index that a property key denotes, if any: the canonical
    decimal numeral of an integer below [2 ^ 32 - 1]. *)
Definition array_index (key : string) : option N :=
  match key with
  | "" => None
  | _ =>
      match read_all_digits key 0 with
      | Some n =>
          if String.eqb (Text.decimal n) key && (n <=? 4294967294)%N then Some n else None
      | None => None
      end
  end.

(** Reading the property [key] of [v].  Own data properties and the elements
    of arrays and strings are modelled; every other property reads as
    [undefined], which is what the engine gives for each key the program
    reads ([service], [operation], [minDuration], [maxDuration], [tags],
    [status], [choices], [0], [message], [content], [response], [error]):
    none of them is inherited.  Reading a property of [null] throws. *)
Definition Get (v : JSValue) (key : string) : Result (option JSValue) :=
  match v with
  | JNull =>
      Err (TypeError ("Cannot read properties of null (reading '" +:+ key +:+ "')"))
  | JObject props => Ok (lookup_prop props key)
  | JArray items =>
      Ok (match array_index key with
          | Some i => nth_error items (N.to_nat i)
          | None => None
          end)
  | JString s =>
      Ok (match array_index key with
          | Some i =>
              match String.get (N.to_nat i) s with
              | Some c => Some (JString (String c ""))
              | None => None
              end
          | None => None
          end)
  | JBool _ | JNumber _ => Ok None
  end.

(** Reading a property of a value that may be [undefined]. *)
Definition GetV (v : option JSValue) (key : string) : Result (option JSValue) :=
  match v with
  | Some x => Get x key
  | None =>
      Err (TypeError ("Cannot read properties of undefined (reading '" +:+ key +:+ "')"))
  end.

(** The optional chain [v?.key]. *)
Definition GetOpt (v : option JSValue) (key : string) : option JSValue :=
  match v with
  | None | Some JNull => None
  | Some x => match Get x key with Ok r => r | Err _ => None end
  end.

(** [typeof v === 'string'], with the string. *)
Definition as_string (v : option JSValue) : option string :=
  match v with
  | Some (JString s) => Some s
  | _ => None
  end.

Definition typeof_object (v : JSValue) : bool :=
  match v with
  | JNull | JArray _ | JObject _ => true
  | _ => false
  end.

Fixpoint indexed {A} (i : N) (l : list A) : list (string * A) :=
  match l with
  | [] => []
  | x :: r => (Text.decimal i, x) :: indexed (N.succ i) r
  end.

(** [Object.entries]: the own enumerable properties, in iteration order. *)
Definition Object_entries (v : JSValue) : list (string * JSValue) :=
  match v with
  | JObject props => props
  | JArray items => indexed 0 items
  | JString s => indexed 0 (map (fun c => JString (String c "")) (list_ascii_of_string s))
  | _ => []
  end.

(** [ToString], as a template literal applies it.  An object of [JSON.parse]
    holds no function: when it has an own property [toString] neither that
    property nor the inherited [valueOf] yields a primitive, and the
    conversion throws; otherwise the inherited [toString] answers.  An array
    is joined with commas, [null] elements giving the empty text. *)
Fixpoint ToString (v : JSValue) : Result string :=
  match v with
  | JNull => Ok "null"
  | JBool b => Ok (if b then "true" else "false")
  | JNumber x => Ok (Num.toString x)
  | JString s => Ok s
  | JArray items =>
      parts ←
        (fix each (l : list JSValue) : Result (list string) :=
           match l with
           | [] => Ok []
           | x :: r =>
               p ← match x with JNull => Ok "" | _ => ToString x end;
               ps ← each r;
               Ok (p :: ps)
           end) items;
      Ok (Text.join "," parts)
  | JObject props =>
      match lookup_prop props "toString" with
      | Some _ => Err (TypeError "Cannot convert object to primitive value")
      | None => Ok "[object Object]"
      end
  end.

End JS.

(** ** [JSON.parse] *)

Module JSON.

Definition code (c : ascii) : N := N_of_ascii c.

Definition is_ws (c : ascii) : bool :=
  ((code c =? 32) || (code c =? 9) || (code c =? 10) || (code c =? 13))%N.

Fixpoint skip_ws (s : string) : string :=
  match s with
  | "" => ""
  | String c r => if is_ws c then skip_ws r else s
  end.

(** A run of decimal digits: the number read after [acc], the count of digits
    and the rest of the text. *)
Fixpoint read_digits (s : string) (acc count : Z) : Z * Z * string :=
  match s with
  | "" => (acc, count, "")
  | String c r =>
      match JS.digit_val c with
      | Some d => read_digits r (acc * 10 + Z.of_N d)%Z (count + 1)%Z
      | None => (acc, count, s)
      end
  end.

(** The grammar of a number: an optional minus sign; an integer part, which is
    the digit zero alone or starts with a digit other than zero; an optional
    fraction, a point and at least one digit; an optional exponent, [e] or [E],
    an optional sign and at least one digit. *)
Definition parse_number (s : string) : option (Num.t * string) :=
  let '(neg, s1) :=
    match Text.strip_prefix "-" s with
    | Some r => (true, r)
    | None => (false, s)
    end in
  match s1 with
  | "" => None
  | String c r =>
      match JS.digit_val c with
      | None => None
      | Some d =>
          let '(ip, _, s2) :=
            if (d =? 0)%N then (0%Z, 1%Z, r) else read_digits r (Z.of_N d) 1 in
          let frac :=
            match Text.strip_prefix "." s2 with
            | Some r2 =>
                let '(m, cnt, s3) := read_digits r2 ip 0 in
                if (cnt =? 0)%Z then None else Some (m, cnt, s3)
            | None => Some (ip, 0%Z, s2)
            end in
          match frac with
          | None => None
          | Some (m, cnt, s3) =>
              match s3 with
              | String e r3 =>
                  if ((code e =? 101) || (code e =? 69))%N then
                    let '(eneg, r4) :=
                      match Text.strip_prefix "-" r3, Text.strip_prefix "+" r3 with
                      | Some r', _ => (true, r')
                      | None, Some r' => (false, r')
                      | None, None => (false, r3)
                      end in
                    let '(ex, ecnt, s4) := read_digits r4 0 0 in
                    if (ecnt =? 0)%Z then None
                    else Some (Num.mk neg m ((if eneg then - ex else ex) - cnt)%Z, s4)
                  else Some (Num.mk neg m (- cnt)%Z, s3)
              | "" => Some (Num.mk neg m (- cnt)%Z, s3)
              end
          end
      end
  end.

Definition hex_val (c : ascii) : option N :=
  let n := code c in
  if ((48 <=? n) && (n <=? 57))%N then Some (n - 48)%N
  else if ((97 <=? n) && (n <=? 102))%N then Some (n - 87)%N
  else if ((65 <=? n) && (n <=? 70))%N then Some (n - 55)%N
  else None.

Definition read_hex4 (s : string) : option (N * string) :=
  match s with
  | String a (String b (String c (String d r))) =>
      match hex_val a, hex_val b, hex_val c, hex_val d with
      | Some x, Some y, Some z, Some w => Some (((x * 16 + y) * 16 + z) * 16 + w, r)%N
      | _, _, _, _ => None
      end
  | _ => None
  end.

(** The UTF-8 encoding of a code point (of a lone surrogate too). *)
Definition utf8 (cp : N) : string :=
  let b (n : N) := ascii_of_N n in
  let cont (n : N) := b (128 + n mod 64)%N in
  if (cp <? 128)%N then String (b cp) ""
  else if (cp <? 2048)%N then String (b (192 + cp / 64)%N) (String (cont cp) "")
  else if (cp <? 65536)%N then
    String (b (224 + cp / 4096)%N) (String (cont (cp / 64)%N) (String (cont cp) ""))
  else
    String (b (240 + cp / 262144)%N)
      (String (cont (cp / 4096)%N) (String (cont (cp / 64)%N) (String (cont cp) ""))).

(** After the escape of a leading surrogate [hi]: the escape of a trailing
    surrogate, with the code point of the pair. *)
Definition trailing_surrogate (hi : N) (s : string) : option (N * string) :=
  if ((55296 <=? hi) && (hi <=? 56319))%N then
    match Text.strip_prefix "\u" s with
    | Some r =>
        match read_hex4 r with
        | Some (lo, r') =>
            if ((56320 <=? lo) && (lo <=? 57343))%N
            then Some (65536 + (hi - 55296) * 1024 + (lo - 56320), r')%N
            else None
        | None => None
        end
    | None => None
    end
  else None.

Definition simple_escape (c : ascii) : option ascii :=
  let n := code c in
  if ((n =? 34) || (n =? 92) || (n =? 47))%N then Some c
  else if (n =? 98)%N then Some (ascii_of_N 8)
  else if (n =? 102)%N then Some (ascii_of_N 12)
  else if (n =? 110)%N then Some (ascii_of_N 10)
  else if (n =? 114)%N then Some (ascii_of_N 13)
  else if (n =? 116)%N then Some (ascii_of_N 9)
  else None.

(** The characters of a string after its opening quote: the text denoted, and
    what follows the closing quote. *)
Fixpoint parse_chars (fuel : nat) (s : string) : option (string * string) :=
  match fuel with
  | O => None
  | S f =>
      let more (p : string) (r : string) :=
        match parse_chars f r with
        | Some (t, rest) => Some (p +:+ t, rest)
        | None => None
        end in
      match s with
      | "" => None
      | String c r =>
          if (code c =? 34)%N then Some ("", r)
          else if (code c <? 32)%N then None
          else if (code c =? 92)%N then
            match r with
            | "" => None
            | String e r1 =>
                match simple_escape e with
                | Some ch => more (String ch "") r1
                | None =>
                    if (code e =? 117)%N then
                      match read_hex4 r1 with
                      | None => None
                      | Some (cu, r2) =>
                          match trailing_surrogate cu r2 with
                          | Some (cp, r3) => more (utf8 cp) r3
                          | None => more (utf8 cu) r2
                          end
                      end
                    else None
                end
            end
          else more (String c "") r
      end
  end.

Definition parse_string (s : string) : option (string * string) :=
  parse_chars (S (String.length s)) s.

(** [CreateDataProperty] on the object under construction, whose properties
    are kept in the order in which they are enumerated: array indices first, in
    ascending order, then the other keys in the order of their creation.  A
    key that is already there keeps its place and takes the new value. *)
Fixpoint replace_prop (props : list (string * JSValue)) (key : string) (v : JSValue)
  : option (list (string * JSValue)) :=
  match props with
  | [] => None
  | (k, w) :: r =>
      if String.eqb k key then Some ((k, v) :: r)
      else option_map (cons (k, w)) (replace_prop r key v)
  end.

Fixpoint insert_index (props : list (string * JSValue)) (i : N) (key : string) (v : JSValue)
  : list (string * JSValue) :=
  match props with
  | [] => [(key, v)]
  | (k, w) :: r =>
      match JS.array_index k with
      | Some j => if (j <? i)%N then (k, w) :: insert_index r i key v else (key, v) :: props
      | None => (key, v) :: props
      end
  end.

Definition define_prop (props : list (string * JSValue)) (key : string) (v : JSValue)
  : list (string * JSValue) :=
  match replace_prop props key v with
  | Some props' => props'
  | None =>
      match JS.array_index key with
      | Some i => insert_index props i key v
      | None => props ++ [(key, v)]
      end
  end.

(** The three mutually recursive parsers, for a value, for the elements of an
    array after its opening bracket and for the members of an object after its
    opening brace.  Each is written over the parsers that it calls, and the
    recursion is tied below, on a bound of the depth of the calls. *)
Definition value_body
    (elements : string -> option (list JSValue * string))
    (members : string -> list (string * JSValue) -> option (JSValue * string))
    (s : string) : option (JSValue * string) :=
  match skip_ws s with
  | "" => None
  | String c r as s' =>
      if (code c =? 123)%N then
        match Text.strip_prefix "}" (skip_ws r) with
        | Some rest => Some (JObject [], rest)
        | None => members r []
        end
      else if (code c =? 91)%N then
        match Text.strip_prefix "]" (skip_ws r) with
        | Some rest => Some (JArray [], rest)
        | None =>
            match elements r with
            | Some (items, rest) => Some (JArray items, rest)
            | None => None
            end
        end
      else if (code c =? 34)%N then
        match parse_string r with
        | Some (t, rest) => Some (JString t, rest)
        | None => None
        end
      else
        match Text.strip_prefix "true" s', Text.strip_prefix "false" s',
              Text.strip_prefix "null" s' with
        | Some rest, _, _ => Some (JBool true, rest)
        | _, Some rest, _ => Some (JBool false, rest)
        | _, _, Some rest => Some (JNull, rest)
        | None, None, None =>
            match parse_number s' with
            | Some (x, rest) => Some (JNumber x, rest)
            | None => None
            end
        end
  end.

Definition elements_body
    (value : string -> option (JSValue * string))
    (elements : string -> option (list JSValue * string))
    (s : string) : option (list JSValue * string) :=
  match value s with
  | None => None
  | Some (v, r) =>
      match skip_ws r with
      | String c r' =>
          if (code c =? 44)%N then
            match elements r' with
            | Some (vs, rest) => Some (v :: vs, rest)
            | None => None
            end
          else if (code c =? 93)%N then Some ([v], r')
          else None
      | "" => None
      end
  end.

Definition members_body
    (value : string -> option (JSValue * string))
    (members : string -> list (string * JSValue) -> option (JSValue * string))
    (s : string) (acc : list (string * JSValue)) : option (JSValue * string) :=
  match Text.strip_prefix Text.dq (skip_ws s) with
  | None => None
  | Some r =>
      match parse_string r with
      | None => None
      | Some (key, r1) =>
          match Text.strip_prefix ":" (skip_ws r1) with
          | None => None
          | Some r2 =>
              match value r2 with
              | None => None
              | Some (v, r3) =>
                  let acc' := define_prop acc key v in
                  match skip_ws r3 with
                  | String c r4 =>
                      if (code c =? 44)%N then members r4 acc'
                      else if (code c =? 125)%N then Some (JObject acc', r4)
                      else None
                  | "" => None
                  end
              end
          end
      end
  end.

Fixpoint parse_value (fuel : nat) (s : string) {struct fuel} : option (JSValue * string) :=
  match fuel with
  | O => None
  | S f => value_body (parse_elements f) (parse_members f) s
  end

with parse_elements (fuel : nat) (s : string) {struct fuel} : option (list JSValue * string) :=
  match fuel with
  | O => None
  | S f => elements_body (parse_value f) (parse_elements f) s
  end

with parse_members (fuel : nat) (s : string) (acc : list (string * JSValue)) {struct fuel}
  : option (JSValue * string) :=
  match fuel with
  | O => None
  | S f => members_body (parse_value f) (parse_members f) s acc
  end.

(** The fuel that [parse] gives: with it or with more, the parsers give the
    same answer (see [JSON_parse_fuel] below). *)
Definition enough (s : string) : nat := 2 * String.length s + 2.

(** [JSON.parse]: one value, with only white space after it. *)
Definition parse_with (fuel : nat) (s : string) : Result JSValue :=
  match parse_value fuel s with
  | Some (v, rest) =>
      if Text.is_empty (skip_ws rest) then Ok v
      else Err (SyntaxError "Unexpected non-whitespace character after JSON")
  | None => Err (SyntaxError "Unexpected token in JSON")
  end.

Definition parse (s : string) : Result JSValue := parse_with (enough s) s.

(** A parser that never gives back more text than it was given. *)
Definition shrinking {A} (parser : string -> option (A * string)) : Prop :=
  forall s a r, parser s = Some (a, r) -> (String.length r <= String.length s)%nat.

End JSON.

(** ** The network and the effects of the adapters

    [fetch] is the only effect of the adapters.  The network answers a request
    with a [Reply]: after [latency] milliseconds the promise of [fetch] either
    resolves to a response or is rejected.  A computation of [IO] reads the
    network and threads a [Trace]: the requests sent so far, in order, and the
    time spent waiting for their replies. *)

Record Request := {
  url : string;
  method : string;
  headers : list (string * string);
  (** the value that the source gives to [JSON.stringify] for the body *)
  body : JSValue
}.

Record Response := {
  ok : bool;
  statusText : string;
  (** the text of the body, as [response.text()] gives it *)
  text : string
}.

(** [response.json()]. *)
Definition json (r : Response) : Result JSValue := JSON.parse (text r).

Inductive Settled :=
| Resolved (r : Response)
| Rejected (e : Thrown).

Record Reply := { latency : N; settled : Settled }.

Definition Network : Type := Request -> Reply.

Record Trace := { calls : list Request; elapsed : N }.

Definition start : Trace := {| calls := []; elapsed := 0%N |}.

Definition IO (A : Type) : Type := Network -> Trace -> Result A * Trace.

#[global] Instance IO_ret : MRet IO := fun A a _ tr => (Ok a, tr).

#[global] Instance IO_bind : MBind IO := fun A B k c net tr =>
  match c net tr with
  | (Ok a, tr') => k a net tr'
  | (Err e, tr') => (Err e, tr')
  end.

Definition throw {A} (e : Thrown) : IO A := fun _ tr => (Err e, tr).

Definition lift {A} (r : Result A) : IO A := fun _ tr => (r, tr).

(** [try { c } catch (err) { h err }]. *)
Definition try_catch {A} (c : IO A) (h : Thrown -> IO A) : IO A := fun net tr =>
  match c net tr with
  | (Ok a, tr') => (Ok a, tr')
  | (Err e, tr') => h e net tr'
  end.

Definition fetch (req : Request) : IO Response := fun net tr =>
  let reply := net req in
  let tr' := {| calls := calls tr ++ [req]; elapsed := (elapsed tr + latency reply)%N |} in
  match settled reply with
  | Resolved r => (Ok r, tr')
  | Rejected e => (Err e, tr')
  end.

Definition number (mant exp10 : Z) : JSValue := JNumber (Num.mk false mant exp10).

(** ** llm-client.ts *)

Module OpenAIClient.

Record t := { apiKey : string; model : string; baseURL : string }.

Definition new (apiKey model : string) : t :=
  {| apiKey := apiKey; model := model; baseURL := "https://api.openai.com/v1" |}.

(** The request of [query]. *)
Definition request (this : t) (prompt : string) : Request := {|
  url := baseURL this +:+ "/chat/completions";
  method := "POST";
  headers := [("Content-Type", "application/json");
              ("Authorization", "Bearer " +:+ apiKey this)];
  body := JObject [
    ("model", JString (model this));
    ("messages", JArray [JObject [("role", JString "user"); ("content", JString prompt)]]);
    ("temperature", number 7 (-1));
    ("max_tokens", number 500 0)]
|}.

Definition query (this : t) (prompt : string) : IO JSValue :=
  response ← fetch (request this prompt);
  if negb (ok response) then
    error ← lift (json response);
    inner ← lift (JS.Get error "error");
    message ← lift (JS.ToString
      (JS.or_else (JS.GetOpt inner "message") (JString (statusText response))));
    throw (Error ("OpenAI API error: " +:+ message))
  else
    data ← lift (json response);
    choices ← lift (JS.Get data "choices");
    first ← lift (JS.GetV choices "0");
    mret (JS.or_else (JS.GetOpt (JS.GetOpt first "message") "content") (JString "")).

End OpenAIClient.

Module OllamaClient.

Record t := { baseURL : string; model : string }.

Definition new (baseURL model : option string) : t :=
  {| baseURL := match baseURL with
                | Some u => if Text.is_empty u then "http://localhost:11434" else u
                | None => "http://localhost:11434"
                end;
     model := match model with
              | Some m => if Text.is_empty m then "llama2" else m
              | None => "llama2"
              end |}.

(** The request of [query]. *)
Definition request (this : t) (prompt : string) : Request := {|
  url := baseURL this +:+ "/api/generate";
  method := "POST";
  headers := [("Content-Type", "application/json")];
  body := JObject [
    ("model", JString (model this));
    ("prompt", JString prompt);
    ("stream", JBool false);
    ("temperature", number 7 (-1))]
|}.

Definition query (this : t) (prompt : string) : IO JSValue :=
  try_catch
    (response ← fetch (request this prompt);
     if negb (ok response) then
       let errorText := text response in
       let errorMsg :=
         match errorData ← JSON.parse errorText; JS.Get errorData "error" with
         | Ok e => JS.or_else e (JString (statusText response))
         | Err _ => JString (statusText response)
         end in
       message ← lift (JS.ToString errorMsg);
       throw (Error ("Ollama API error: " +:+ message))
     else
       data ← lift (json response);
       answer ← lift (JS.Get data "response");
       mret (JS.or_else answer (JString "")))
    (fun err =>
       match err with
       | ThrownError _ message =>
           if Text.includes message "model" && Text.includes message "not found" then
             throw (Error ("Ollama model '" +:+ model this +:+
                           "' not found. Install it with: ollama pull " +:+ model this))
           else throw err
       | ThrownValue _ =>
           throw (Error ("Unable to connect to Ollama at " +:+ baseURL this +:+
                         ". Make sure Ollama is running on the correct port."))
       end).

End OllamaClient.

Module ILLMClientConfig.
Record t := { model : string; apiKey : option string; baseURL : option string }.
End ILLMClientConfig.

Module ILLMResponse.
Record t := { content : JSValue; model : string }.
End ILLMResponse.

Definition queryLLM (config : ILLMClientConfig.t) (prompt : string) : IO ILLMResponse.t :=
  let model := ILLMClientConfig.model config in
  content ←
    (if String.eqb model "openai-gpt4" || String.eqb model "openai-gpt3.5" then
       match ILLMClientConfig.apiKey config with
       | Some key =>
           if Text.is_empty key then throw (Error "OpenAI API key is required")
           else
             let openaiModel :=
               if String.eqb model "openai-gpt4" then "gpt-4" else "gpt-3.5-turbo" in
             OpenAIClient.query (OpenAIClient.new key openaiModel) prompt
       | None => throw (Error "OpenAI API key is required")
       end
     else if String.eqb model "ollama-free" then
       OllamaClient.query (OllamaClient.new (ILLMClientConfig.baseURL config) None) prompt
     else throw (Error ("Unknown model: " +:+ model)));
  mret {| ILLMResponse.content := content; ILLMResponse.model := model |}.

(** ** query-parser.ts *)

Module IParsedQuery.
Record t := {
  service : option string;
  operation : option string;
  minDuration : option string;
  maxDuration : option string;
  (** the own enumerable properties of the [tags] object, in iteration order *)
  tags : option (list (string * JSValue));
  status : option JSValue;
  natural_language_question : string
}.
End IParsedQuery.

(** The system prompt, written with an apostrophe for each double quote. *)
Definition SYSTEM_PROMPT : string := Text.quoted
"You are a Jaeger distributed tracing query assistant. 
Your job is to convert natural language questions into search filter parameters for Jaeger traces.

Guidelines:
1. Extract the service name from the question (it may be prefixed with 'service:', 'app:', or just mentioned naturally)
2. Extract operation/span name if mentioned (look for 'operation:', 'span:', 'request:', 'endpoint:', etc.)
3. Extract duration constraints (look for patterns like 'slower than', 'faster than', 'taking more than', 'less than', etc.)
4. Extract tag filters if applicable (e.g., 'error code 500', 'status=error')
5. Infer if the user is looking for errors, successes, or all traces
6. If information is incomplete, make reasonable assumptions and note them

Always respond in valid JSON format with the following structure (even if some fields are empty):
{
  'service': 'service-name-or-empty-string',
  'operation': 'operation-name-or-empty-string',
  'minDuration': 'duration-like-100ms-or-empty-string',
  'maxDuration': 'duration-like-5s-or-empty-string',
  'tags': {},
  'status': 'error|success|all',
  'reasoning': 'Explanation of what was extracted and any assumptions made'
}

Examples:
Question: 'Show me slow requests to the user service'
Response: {'service': 'user', 'operation': '', 'minDuration': '500ms', 'maxDuration': '', 'tags': {}, 'status': 'all', 'reasoning': 'Selected user service. Set 500ms minimum to find slow requests.'}

Question: 'Find errors in payment processing'
Response: {'service': 'payment', 'operation': '', 'minDuration': '', 'maxDuration': '', 'tags': {'http.status_code': '5xx'}, 'status': 'error', 'reasoning': 'Selected payment service, set status filter to errors.'}".

(** [x && x !== '' ? x : undefined], for [x] a string or [undefined]. *)
Definition non_empty (x : option string) : option string :=
  match x with
  | Some s => if Text.is_empty s then None else Some s
  | None => None
  end.

(** The choice of the text given to [JSON.parse]: the interior of a fenced
    block, else the span between braces, else the whole content. *)
Definition select_json (content : string) : string :=
  match Text.match_fenced content with
  | Some interior => interior
  | None =>
      match Text.match_braces content with
      | Some span => span
      | None => content
      end
  end.

(** The body of the [try] block of [parseNaturalLanguageQuery]. *)
Definition parse_body (question : string) (llmResponse : ILLMResponse.t)
  : Result (IParsedQuery.t * ILLMResponse.t) :=
  jsonContent ←
    match ILLMResponse.content llmResponse with
    | JString content => Ok (select_json content)
    | JNull => Err (TypeError "Cannot read properties of null (reading 'match')")
    | _ => Err (TypeError "jsonContent.match is not a function")
    end;
  parsed ← JSON.parse jsonContent;
  service ← JS.as_string <$> JS.Get parsed "service";
  operation ← JS.as_string <$> JS.Get parsed "operation";
  minDuration ← JS.as_string <$> JS.Get parsed "minDuration";
  maxDuration ← JS.as_string <$> JS.Get parsed "maxDuration";
  tags ← JS.Get parsed "tags";
  let tags :=
    match tags with
    | Some v =>
        if JS.truthy tags && JS.typeof_object v
           && negb (Nat.eqb (length (JS.Object_entries v)) 0)
        then Some (JS.Object_entries v)
        else None
    | None => None
    end in
  status ← JS.Get parsed "status";
  let status := JS.or_else status (JString "all") in
  let result := {|
    IParsedQuery.natural_language_question := question;
    IParsedQuery.service := non_empty service;
    IParsedQuery.operation := non_empty operation;
    IParsedQuery.minDuration := non_empty minDuration;
    IParsedQuery.maxDuration := non_empty maxDuration;
    IParsedQuery.tags := tags;
    IParsedQuery.status := Some status
  |} in
  Ok (result, llmResponse).

(** [error instanceof Error ? error.message : String(error)]. *)
Definition message_of (error : Thrown) : Result string :=
  match error with
  | ThrownError _ message => Ok message
  | ThrownValue v => JS.ToString v
  end.

(** The [try] block with its [catch] clause. *)
Definition parse_response (question : string) (llmResponse : ILLMResponse.t)
  : Result (IParsedQuery.t * ILLMResponse.t) :=
  match parse_body question llmResponse with
  | Ok r => Ok r
  | Err error =>
      message ← message_of error;
      Err (Error ("Failed to parse LLM response as JSON: " +:+ message))
  end.

Definition parseNaturalLanguageQuery (question : string) (llmConfig : ILLMClientConfig.t)
  : IO (IParsedQuery.t * ILLMResponse.t) :=
  let prompt :=
    SYSTEM_PROMPT +:+ Text.nl +:+ Text.nl +:+
    "Now parse this question: " +:+ Text.dq +:+ question +:+ Text.dq in
  llmResponse ← queryLLM llmConfig prompt;
  lift (parse_response question llmResponse).

(** [filters.tags || ''], then the marker after it. *)
Definition with_marker (filters : gmap string string) (marker : string) : gmap string string :=
  let existingTags := default "" (filters !! "tags") in
  <["tags" := if Text.is_empty existingTags then marker
              else existingTags +:+ " " +:+ marker]> filters.

(** [if (x) filters.key = x]. *)
Definition copy_field (key : string) (x : option string) (filters : gmap string string)
  : gmap string string :=
  match non_empty x with
  | Some s => <[key := s]> filters
  | None => filters
  end.

Fixpoint tag_strings (entries : list (string * JSValue)) : Result (list string) :=
  match entries with
  | [] => Ok []
  | (key, value) :: rest =>
      v ← JS.ToString value;
      tagStrings ← tag_strings rest;
      Ok ((key +:+ "=" +:+ Text.dq +:+ v +:+ Text.dq) :: tagStrings)
  end.

Definition is_status (parsed : IParsedQuery.t) (s : string) : bool :=
  match IParsedQuery.status parsed with
  | Some (JString x) => String.eqb x s
  | _ => false
  end.

Definition convertParsedQueryToSearchFilters (parsed : IParsedQuery.t)
  : Result (gmap string string) :=
  let filters : gmap string string := ∅ in
  let filters := copy_field "service" (IParsedQuery.service parsed) filters in
  let filters := copy_field "operation" (IParsedQuery.operation parsed) filters in
  let filters := copy_field "minDuration" (IParsedQuery.minDuration parsed) filters in
  let filters := copy_field "maxDuration" (IParsedQuery.maxDuration parsed) filters in
  filters ←
    match IParsedQuery.tags parsed with
    | Some ((_ :: _) as entries) =>
        tagStrings ← tag_strings entries;
        Ok (<["tags" := Text.join " " tagStrings]> filters)
    | _ => Ok filters
    end;
  if is_status parsed "error" then
    Ok (with_marker filters ("otel.status_code=" +:+ Text.dq +:+ "ERROR" +:+ Text.dq))
  else if is_status parsed "success" then
    Ok (with_marker filters ("otel.status_code=" +:+ Text.dq +:+ "OK" +:+ Text.dq))
  else Ok filters.

(** ** AIAssistantSearch.tsx: the [handleSearch] callback *)

Module HistoryEntry.
Record t := { question : string; timestamp : Z }.
End HistoryEntry.

(** What [searchTraces] receives. *)
Module SearchQuery.
Record t := {
  service : string;
  operation : string;
  start : string;
  end_ : Z;
  limit : string;
  lookback : string;
  minDuration : option string;
  maxDuration : option string;
  tags : option string
}.
End SearchQuery.

(** The calls of [message.warning], [message.error] and [message.success]. *)
Inductive Toast :=
| Warning (text : string)
| Failure (text : string)
| Success (text : string).

(** The state of the component, with the two collaborators that the callback
    writes to: the [jaeger-ai-history] item of the local storage (the list
    that was serialised last, if any) and the searches handed to
    [searchTraces], latest last. *)
Record State := {
  question : string;
  selectedModel : string;
  apiKey : string;
  ollamaUrl : string;
  loading : bool;
  showSettings : bool;
  parsedQuery : option IParsedQuery.t;
  queryHistory : list HistoryEntry.t;
  storedHistory : option (list HistoryEntry.t);
  toasts : list Toast;
  searches : list SearchQuery.t
}.

Definition setLoading (b : bool) (s : State) : State :=
  {| question := question s; selectedModel := selectedModel s; apiKey := apiKey s;
     ollamaUrl := ollamaUrl s; loading := b; showSettings := showSettings s;
     parsedQuery := parsedQuery s; queryHistory := queryHistory s;
     storedHistory := storedHistory s; toasts := toasts s; searches := searches s |}.

Definition setShowSettings (b : bool) (s : State) : State :=
  {| question := question s; selectedModel := selectedModel s; apiKey := apiKey s;
     ollamaUrl := ollamaUrl s; loading := loading s; showSettings := b;
     parsedQuery := parsedQuery s; queryHistory := queryHistory s;
     storedHistory := storedHistory s; toasts := toasts s; searches := searches s |}.

Definition setParsedQuery (p : option IParsedQuery.t) (s : State) : State :=
  {| question := question s; selectedModel := selectedModel s; apiKey := apiKey s;
     ollamaUrl := ollamaUrl s; loading := loading s; showSettings := showSettings s;
     parsedQuery := p; queryHistory := queryHistory s;
     storedHistory := storedHistory s; toasts := toasts s; searches := searches s |}.

Definition setQueryHistory (h : list HistoryEntry.t) (s : State) : State :=
  {| question := question s; selectedModel := selectedModel s; apiKey := apiKey s;
     ollamaUrl := ollamaUrl s; loading := loading s; showSettings := showSettings s;
     parsedQuery := parsedQuery s; queryHistory := h;
     storedHistory := storedHistory s; toasts := toasts s; searches := searches s |}.

(** [localStorage.setItem('jaeger-ai-history', JSON.stringify(h))]. *)
Definition storeHistory (h : list HistoryEntry.t) (s : State) : State :=
  {| question := question s; selectedModel := selectedModel s; apiKey := apiKey s;
     ollamaUrl := ollamaUrl s; loading := loading s; showSettings := showSettings s;
     parsedQuery := parsedQuery s; queryHistory := queryHistory s;
     storedHistory := Some h; toasts := toasts s; searches := searches s |}.

Definition toast (t : Toast) (s : State) : State :=
  {| question := question s; selectedModel := selectedModel s; apiKey := apiKey s;
     ollamaUrl := ollamaUrl s; loading := loading s; showSettings := showSettings s;
     parsedQuery := parsedQuery s; queryHistory := queryHistory s;
     storedHistory := storedHistory s; toasts := toasts s ++ [t]; searches := searches s |}.

Definition searchTraces (q : SearchQuery.t) (s : State) : State :=
  {| question := question s; selectedModel := selectedModel s; apiKey := apiKey s;
     ollamaUrl := ollamaUrl s; loading := loading s; showSettings := showSettings s;
     parsedQuery := parsedQuery s; queryHistory := queryHistory s;
     storedHistory := storedHistory s; toasts := toasts s; searches := searches s ++ [q] |}.

(** What the callback reads from outside the component. *)
Record Env := {
  (** the time of [new Date()], in milliseconds *)
  new_Date : Z;
  (** the value of [Date.now()] *)
  Date_now : Z;
  (** Modelled as a parameter: [lookbackToTimestamp] is defined in
      [SearchForm], which is not among the sources. *)
  lookbackToTimestamp : string -> Z -> Num.t
}.

(** [!s.trim()]: the text holds nothing but white space and line terminators
    (U+0009 to U+000D, U+0020, U+00A0, U+1680, U+2000 to U+200A, U+2028,
    U+2029, U+202F, U+205F, U+3000 and U+FEFF, in their UTF-8 encodings). *)
Definition white1 (a : N) : bool :=
  (((9 <=? a) && (a <=? 13)) || (a =? 32))%N.

Definition white2 (a b : N) : bool := ((a =? 194) && (b =? 160))%N.

Definition white3 (a b c : N) : bool :=
  (((a =? 225) && (b =? 154) && (c =? 128))
   || ((a =? 226) && (b =? 128)
       && (((128 <=? c) && (c <=? 138)) || (c =? 168) || (c =? 169) || (c =? 175)))
   || ((a =? 226) && (b =? 129) && (c =? 159))
   || ((a =? 227) && (b =? 128) && (c =? 128))
   || ((a =? 239) && (b =? 187) && (c =? 191)))%N.

Fixpoint blank (s : string) : bool :=
  match s with
  | "" => true
  | String a r =>
      if white1 (N_of_ascii a) then blank r
      else
        match r with
        | "" => false
        | String b r2 =>
            if white2 (N_of_ascii a) (N_of_ascii b) then blank r2
            else
              match r2 with
              | "" => false
              | String c r3 =>
                  if white3 (N_of_ascii a) (N_of_ascii b) (N_of_ascii c) then blank r3
                  else false
              end
        end
  end.

Definition is_openai (model : string) : bool :=
  String.eqb model "openai-gpt4" || String.eqb model "openai-gpt3.5".

(** The [catch] clause of the callback. *)
Definition report (error : Thrown) (s : State) : State :=
  toast (Failure match error with
                 | ThrownError _ message => message
                 | ThrownValue _ => "Failed to process question. Please try again."
                 end) s.

(** The search query built from the filters. *)
Definition searchQuery_of (env : Env) (filters : gmap string string) : SearchQuery.t :=
  let lookback := "1h" in
  {| SearchQuery.service := default "-" (non_empty (filters !! "service"));
     SearchQuery.operation := default "-" (non_empty (filters !! "operation"));
     SearchQuery.start := Num.toString (lookbackToTimestamp env lookback (new_Date env));
     SearchQuery.end_ := (new_Date env * 1000)%Z;
     SearchQuery.limit := "20";
     SearchQuery.lookback := lookback;
     SearchQuery.minDuration := non_empty (filters !! "minDuration");
     SearchQuery.maxDuration := non_empty (filters !! "maxDuration");
     SearchQuery.tags := non_empty (filters !! "tags") |}.

(** The configuration that the callback hands to the parser. *)
Definition llmConfig_of (seen : State) : ILLMClientConfig.t := {|
  ILLMClientConfig.model := selectedModel seen;
  ILLMClientConfig.apiKey :=
    if Text.starts_with "openai" (selectedModel seen) then Some (apiKey seen) else None;
  ILLMClientConfig.baseURL :=
    if String.eqb (selectedModel seen) "ollama-free" then Some (ollamaUrl seen) else None
|}.

(** [handleSearch], as created by the render that saw the state [seen], run on
    the state [s]; the result is the state once the promise has settled, with
    the trace of the network.  The call of [console.error] in the [catch]
    clause is left out. *)
Definition handleSearch (seen : State) (env : Env) (net : Network) (s : State)
  : State * Trace :=
  if blank (question seen) then
    (toast (Warning "Please enter a question") s, start)
  else
    let s := setParsedQuery None (setLoading true s) in
    if is_openai (selectedModel seen) && Text.is_empty (apiKey seen) then
      let s := toast (Failure "Please configure OpenAI API key in settings") s in
      let s := setLoading false (setShowSettings true s) in
      (setLoading false s, start)
    else
      match parseNaturalLanguageQuery (question seen) (llmConfig_of seen) net start with
      | (Err error, tr) => (setLoading false (report error s), tr)
      | (Ok (parsed, _), tr) =>
          let s := setParsedQuery (Some parsed) s in
          match convertParsedQueryToSearchFilters parsed with
          | Err error => (setLoading false (report error s), tr)
          | Ok filters =>
              let searchQuery := searchQuery_of env filters in
              let newHistory :=
                {| HistoryEntry.question := question seen;
                   HistoryEntry.timestamp := Date_now env |}
                :: take 9 (queryHistory seen) in
              let s := setQueryHistory newHistory s in
              let s := storeHistory newHistory s in
              let s := searchTraces searchQuery s in
              let s := toast (Success "Search executed with AI-generated filters") s in
              (setLoading false s, tr)
          end
      end.

(** ** Notions used in the statements *)

(** *** The gateway *)

(** The network [net] with every reply held back by [d] more milliseconds. *)
Definition delay (d : N) (net : Network) : Network := fun req =>
  {| latency := (latency (net req) + d)%N; settled := settled (net req) |}.

(** Two traces of the same computation, on [delay d net] and on [net]: the
    same requests, and [d] more milliseconds of waiting for each of them. *)
Definition lagging (d : N) (slow fast : Trace) : Prop :=
  calls slow = calls fast ∧
  elapsed slow = (elapsed fast + d * N.of_nat (length (calls fast)))%N.

(** A computation whose result and requests do not depend on how long the
    replies take. *)
Definition latency_blind {A} (c : IO A) : Prop :=
  ∀ net d slow fast, lagging d slow fast →
    (c (delay d net) slow).1 = (c net fast).1 ∧
    lagging d (c (delay d net) slow).2 (c net fast).2.

(** What a deadline of [deadline] milliseconds on the gateway would mean:
    a call that has waited longer fails. *)
Definition enforces_deadline (deadline : N) : Prop :=
  ∀ config prompt net r tr,
    queryLLM config prompt net start = (r, tr) →
    (deadline < elapsed tr)%N → is_Ok r = false.

Definition is_hosted (model : string) : Prop :=
  model = "openai-gpt4" ∨ model = "openai-gpt3.5".

Definition known_model (model : string) : Prop :=
  is_hosted model ∨ model = "ollama-free".

(** [!config.apiKey]. *)
Definition missing (key : option string) : Prop :=
  key = None ∨ key = Some "".

Definition local_config : ILLMClientConfig.t :=
  {| ILLMClientConfig.model := "ollama-free";
     ILLMClientConfig.apiKey := None;
     ILLMClientConfig.baseURL := None |}.

Definition hosted_config (key : option string) : ILLMClientConfig.t :=
  {| ILLMClientConfig.model := "openai-gpt4";
     ILLMClientConfig.apiKey := key;
     ILLMClientConfig.baseURL := None |}.

(** A network that answers every request after [d] milliseconds with a
    success status and the body [body]. *)
Definition answering (d : N) (body : string) : Network := fun _ =>
  {| latency := d;
     settled := Resolved {| ok := true; statusText := "OK"; text := body |} |}.

(** A network on which no connection can be made: [fetch] rejects with a
    [TypeError], as the Fetch standard has it for a network error (the message
    is the one of Chromium). *)
Definition unreachable : Network := fun _ =>
  {| latency := 0; settled := Rejected (TypeError "Failed to fetch") |}.

(** A network whose server answers with a failure status and the body [body]. *)
Definition refusing (status body : string) : Network := fun _ =>
  {| latency := 0;
     settled := Resolved {| ok := false; statusText := status; text := body |} |}.

(** *** The extractor *)

(** The completion [content], as the gateway returns it for [model]. *)
Definition llm_reply (model content : string) : ILLMResponse.t :=
  {| ILLMResponse.content := JString content; ILLMResponse.model := model |}.

(** [interior] lies in [content] between an opening fence labelled [json] and
    a closing fence, a newline excluded at either end. *)
Definition fenced_in (content interior : string) : Prop :=
  ∃ pre n1 n2 post,
    content = pre +:+ "```json" +:+ n1 +:+ interior +:+ n2 +:+ "```" +:+ post
    ∧ (n1 = "" ∨ n1 = Text.nl) ∧ (n2 = "" ∨ n2 = Text.nl).

Definition has_fence (content : string) : Prop :=
  ∃ pre mid post, content = pre +:+ "```json" +:+ mid +:+ "```" +:+ post.

Fixpoint occurs (c : ascii) (s : string) : Prop :=
  match s with
  | "" => False
  | String a r => a = c ∨ occurs c r
  end.

(** [span] runs from the first opening brace of [content] to its last closing
    brace. *)
Definition brace_span (content span : string) : Prop :=
  ∃ pre mid post,
    content = pre +:+ span +:+ post
    ∧ span = "{" +:+ mid +:+ "}"
    ∧ ¬ occurs "{" pre ∧ ¬ occurs "}" post.

Definition has_braces (content : string) : Prop :=
  ∃ pre mid post, content = pre +:+ "{" +:+ mid +:+ "}" +:+ post.

(** The query that the [try] block builds from a parsed value other than
    [null]. *)
Definition normalized (question : string) (parsed : JSValue) : IParsedQuery.t :=
  {| IParsedQuery.service :=
       non_empty (JS.as_string (JS.GetOpt (Some parsed) "service"));
     IParsedQuery.operation :=
       non_empty (JS.as_string (JS.GetOpt (Some parsed) "operation"));
     IParsedQuery.minDuration :=
       non_empty (JS.as_string (JS.GetOpt (Some parsed) "minDuration"));
     IParsedQuery.maxDuration :=
       non_empty (JS.as_string (JS.GetOpt (Some parsed) "maxDuration"));
     IParsedQuery.tags :=
       match JS.GetOpt (Some parsed) "tags" with
       | Some v =>
           if JS.truthy (Some v) && JS.typeof_object v
              && negb (Nat.eqb (length (JS.Object_entries v)) 0)
           then Some (JS.Object_entries v) else None
       | None => None
       end;
     IParsedQuery.status :=
       Some (JS.or_else (JS.GetOpt (Some parsed) "status") (JString "all"));
     IParsedQuery.natural_language_question := question |}.

Definition parse_failure (message : string) : Thrown :=
  Error ("Failed to parse LLM response as JSON: " +:+ message).

(** The invariant of a parsed query: a field that is present is not empty. *)
Definition filled (x : option string) : Prop :=
  match x with
  | Some s => s ≠ ""
  | None => True
  end.

Definition string_valued (entries : list (string * JSValue)) : Prop :=
  Forall (fun kv => ∃ s, kv.2 = JString s) entries.

Definition recognized (status : option JSValue) : Prop :=
  status = Some (JString "error") ∨ status = Some (JString "success")
  ∨ status = Some (JString "all").

(** *** The compiler *)

Definition ERROR_MARKER : string :=
  "otel.status_code=" +:+ Text.dq +:+ "ERROR" +:+ Text.dq.

Definition OK_MARKER : string :=
  "otel.status_code=" +:+ Text.dq +:+ "OK" +:+ Text.dq.

Definition with_status (status : string) (p : IParsedQuery.t) : IParsedQuery.t :=
  {| IParsedQuery.service := IParsedQuery.service p;
     IParsedQuery.operation := IParsedQuery.operation p;
     IParsedQuery.minDuration := IParsedQuery.minDuration p;
     IParsedQuery.maxDuration := IParsedQuery.maxDuration p;
     IParsedQuery.tags := IParsedQuery.tags p;
     IParsedQuery.status := Some (JString status);
     IParsedQuery.natural_language_question := IParsedQuery.natural_language_question p |}.

Definition bare_query (tags : option (list (string * JSValue))) (status : string)
  : IParsedQuery.t :=
  {| IParsedQuery.service := None;
     IParsedQuery.operation := None;
     IParsedQuery.minDuration := None;
     IParsedQuery.maxDuration := None;
     IParsedQuery.tags := tags;
     IParsedQuery.status := Some (JString status);
     IParsedQuery.natural_language_question := "" |}.

Definition filter_names : list string :=
  ["service"; "operation"; "minDuration"; "maxDuration"; "tags"].

(** The filters as they stand before the status is looked at. *)
Definition before_status (parsed : IParsedQuery.t) : Result (gmap string string) :=
  let filters : gmap string string := ∅ in
  let filters := copy_field "service" (IParsedQuery.service parsed) filters in
  let filters := copy_field "operation" (IParsedQuery.operation parsed) filters in
  let filters := copy_field "minDuration" (IParsedQuery.minDuration parsed) filters in
  let filters := copy_field "maxDuration" (IParsedQuery.maxDuration parsed) filters in
  match IParsedQuery.tags parsed with
  | Some ((_ :: _) as entries) =>
      tagStrings ← tag_strings entries;
      Ok (<["tags" := Text.join " " tagStrings]> filters)
  | _ => Ok filters
  end.

(** The tags string once [marker] has been appended to the rendered tags. *)
Definition appended (existing : option string) (marker : string) : string :=
  match existing with
  | Some rendered => rendered +:+ " " +:+ marker
  | None => marker
  end.

Definition well_formed (filters : gmap string string) : Prop :=
  ∀ key value, filters !! key = Some value → key ∈ filter_names ∧ value ≠ "".

(** *** The callback *)

(** The request is turned down before the gateway is called: the question is
    blank, or a hosted model is selected and no key is configured. *)
Definition turned_down (seen : State) : bool :=
  blank (question seen)
  || (is_openai (selectedModel seen) && Text.is_empty (apiKey seen)).

(** The gateway, the extraction and the compilation, one after the other, as
    the callback runs them. *)
Definition pipeline (seen : State) (net : Network) : Result (gmap string string) :=
  answer ← (parseNaturalLanguageQuery (question seen) (llmConfig_of seen) net start).1;
  convertParsedQueryToSearchFilters answer.1.

Definition new_entry (seen : State) (env : Env) : HistoryEntry.t :=
  {| HistoryEntry.question := question seen;
     HistoryEntry.timestamp := Date_now env |}.

Definition newest_first (h : list HistoryEntry.t) : Prop :=
  StronglySorted (fun a b => (HistoryEntry.timestamp b <= HistoryEntry.timestamp a)%Z) h.

Definition initial (question model : string) (history : list HistoryEntry.t) : State :=
  {| question := question; selectedModel := model; apiKey := "";
     ollamaUrl := "http://localhost:11434"; loading := false; showSettings := false;
     parsedQuery := None; queryHistory := history; storedHistory := None;
     toasts := []; searches := [] |}.

(** A local backend whose completion is the JSON text of the first example of
    the system prompt. *)
Definition slow_requests_reply : string := Text.quoted
  "{'response':'{\'service\':\'user\',\'minDuration\':\'500ms\',\'status\':\'all\'}'}".

(** A local backend whose completion is the JSON text of the second example,
    inside a fenced block and some prose. *)
Definition payment_errors_reply : string := Text.quoted
  "{'response':'Here you go:\n```json\n{\'service\':\'payment\',\'tags\':{\'http.status_code\':\'5xx\'},\'status\':\'error\'}\n```'}".

Definition clock (now : Z) : Env :=
  {| new_Date := now; Date_now := now;
     lookbackToTimestamp := fun _ t => Num.of_Z ((t - 3600000) * 1000) |}.

(** ** AIAssistantSearch.tsx: the settings and the other handlers *)

(** The two items of the local storage that hold the settings; an item that
    was never written reads as [null], here [None]. *)
Record Settings := {
  openai_key : option string;
  ollama_url : option string
}.

Definition setQuestion (q : string) (s : State) : State :=
  {| question := q; selectedModel := selectedModel s; apiKey := apiKey s;
     ollamaUrl := ollamaUrl s; loading := loading s; showSettings := showSettings s;
     parsedQuery := parsedQuery s; queryHistory := queryHistory s;
     storedHistory := storedHistory s; toasts := toasts s; searches := searches s |}.

(** The state of the component when it is mounted: the initial values of its
    [useState] calls.  [stored] is the history item of the local storage, as
    in [State]: the history starts as the list it holds, or empty. *)
Definition mount (store : Settings) (stored : option (list HistoryEntry.t)) : State :=
  {| question := "";
     selectedModel := "ollama-free";
     loading := false;
     showSettings := false;
     apiKey := default "" (non_empty (openai_key store));
     ollamaUrl := default "http://localhost:11434" (non_empty (ollama_url store));
     parsedQuery := None;
     queryHistory := default [] stored;
     storedHistory := stored;
     toasts := [];
     searches := [] |}.

Definition handleSaveSettings (seen : State) (store : Settings) (s : State)
  : State * Settings :=
  let store := {| openai_key := Some (apiKey seen); ollama_url := ollama_url store |} in
  let store := {| openai_key := openai_key store; ollama_url := Some (ollamaUrl seen) |} in
  let s := toast (Success "Settings saved successfully") s in
  (setShowSettings false s, store).

Definition handleSelectFromHistory (historyQuestion : string) (s : State) : State :=
  setQuestion historyQuestion s.

Definition handleClear (s : State) : State :=
  setParsedQuery None (setQuestion "" s).

(** The [onClick] of the button 'Run This Search' of a history item, as the
    render that saw [seen] created it: [handleSelectFromHistory] on the
    question of the item, then the [handleSearch] of that render. *)
Definition runThisSearch (seen : State) (item : HistoryEntry.t) (env : Env)
    (net : Network) (s : State) : State * Trace :=
  handleSearch seen env net (handleSelectFromHistory (HistoryEntry.question item) s).

(** ** Further notions used in the statements *)

(** The prompt that [parseNaturalLanguageQuery] builds for a question. *)
Definition prompt_of (question : string) : string :=
  SYSTEM_PROMPT +:+ Text.nl +:+ Text.nl +:+
  "Now parse this question: " +:+ Text.dq +:+ question +:+ Text.dq.

(** [err.message.includes('model') && err.message.includes('not found')]. *)
Definition model_absent (message : string) : bool :=
  Text.includes message "model" && Text.includes message "not found".

(** The base URL of the local client made for a configuration. *)
Definition local_base (baseURL : option string) : string :=
  default "http://localhost:11434" (non_empty baseURL).

(** The name that the hosted backend has for a model of the configuration. *)
Definition openai_name (model : string) : string :=
  if String.eqb model "openai-gpt4" then "gpt-4" else "gpt-3.5-turbo".

Definition with_apiKey (key : option string) (config : ILLMClientConfig.t)
  : ILLMClientConfig.t :=
  {| ILLMClientConfig.model := ILLMClientConfig.model config;
     ILLMClientConfig.apiKey := key;
     ILLMClientConfig.baseURL := ILLMClientConfig.baseURL config |}.

Definition with_baseURL (baseURL : option string) (config : ILLMClientConfig.t)
  : ILLMClientConfig.t :=
  {| ILLMClientConfig.model := ILLMClientConfig.model config;
     ILLMClientConfig.apiKey := ILLMClientConfig.apiKey config;
     ILLMClientConfig.baseURL := baseURL |}.

Definition setApiKey (key : string) (s : State) : State :=
  {| question := question s; selectedModel := selectedModel s; apiKey := key;
     ollamaUrl := ollamaUrl s; loading := loading s; showSettings := showSettings s;
     parsedQuery := parsedQuery s; queryHistory := queryHistory s;
     storedHistory := storedHistory s; toasts := toasts s; searches := searches s |}.

(** A computation that sends the requests [requests], in this order, whatever
    its outcome. *)
Definition sends {A} (requests : list Request) (c : IO A) : Prop :=
  ∀ net tr, calls (c net tr).2 = (calls tr ++ requests)%list.

(** The text [key="value"] of a tag. *)
Definition rendered_tag (entry : string * string) : string :=
  entry.1 +:+ "=" +:+ Text.dq +:+ entry.2 +:+ Text.dq.

(** Tags whose values are texts. *)
Definition text_tags (entries : list (string * string)) : list (string * JSValue) :=
  map (fun entry => (entry.1, JString entry.2)) entries.

(** The text field of a payload: the text under [key] when it is a text that
    is not empty. *)
Definition text_field (payload : JSValue) (key : string) : option string :=
  non_empty (JS.as_string (JS.GetOpt (Some payload) key)).

(** * Properties *)

(** ** The gateway and the adapters *)

Section Blind.
Context {A B : Type}.

Lemma blind_ret (a : A) : latency_blind (mret a).
Proof. intros net d slow fast H. split; [reflexivity | exact H]. Qed.

Lemma blind_throw (e : Thrown) : latency_blind (@throw A e).
Proof. intros net d slow fast H. split; [reflexivity | exact H]. Qed.

Lemma blind_lift (r : Result A) : latency_blind (lift r).
Proof. intros net d slow fast H. split; [reflexivity | exact H]. Qed.

Lemma blind_bind (c : IO A) (k : A → IO B) :
  latency_blind c → (∀ a, latency_blind (k a)) → latency_blind (c ≫= k).
Proof.
  intros Hc Hk net d slow fast H.
  destruct (Hc net d slow fast H) as [Hr Ht].
  unfold mbind, IO_bind.
  destruct (c (delay d net) slow) as [r1 t1], (c net fast) as [r2 t2]; simpl in *.
  subst r2. destruct r1 as [a | e]; [apply Hk; exact Ht | split; [reflexivity | exact Ht]].
Qed.

Lemma blind_try_catch (c : IO A) (h : Thrown → IO A) :
  latency_blind c → (∀ e, latency_blind (h e)) → latency_blind (try_catch c h).
Proof.
  intros Hc Hh net d slow fast H.
  destruct (Hc net d slow fast H) as [Hr Ht].
  unfold try_catch.
  destruct (c (delay d net) slow) as [r1 t1], (c net fast) as [r2 t2]; simpl in *.
  subst r2. destruct r1 as [a | e]; [split; [reflexivity | exact Ht] | apply Hh; exact Ht].
Qed.

End Blind.

Lemma blind_fetch (req : Request) : latency_blind (fetch req).
Proof.
  intros net d slow fast [Hc He]. unfold fetch, delay; simpl.
  assert (L : lagging d
    {| calls := calls slow ++ [req];
       elapsed := (elapsed slow + (latency (net req) + d))%N |}
    {| calls := calls fast ++ [req];
       elapsed := (elapsed fast + latency (net req))%N |}).
  { split; simpl; [by rewrite Hc |]. rewrite He, length_app; simpl. lia. }
  destruct (settled (net req)); simpl; split; auto.
Qed.

Ltac blind_cases :=
  repeat match goal with
         | |- latency_blind (if ?b then _ else _) => destruct b
         | |- latency_blind (match ?x with _ => _ end) => destruct x
         end.

Lemma blind_OpenAI this prompt : latency_blind (OpenAIClient.query this prompt).
Proof.
  unfold OpenAIClient.query.
  repeat first
    [ apply blind_bind; [| intros ?]
    | apply blind_fetch | apply blind_lift | apply blind_throw | apply blind_ret
    | progress blind_cases ].
Qed.

Lemma blind_Ollama this prompt : latency_blind (OllamaClient.query this prompt).
Proof.
  unfold OllamaClient.query.
  repeat first
    [ apply blind_bind; [| intros ?]
    | apply blind_try_catch; [| intros ?]
    | apply blind_fetch | apply blind_lift | apply blind_throw | apply blind_ret
    | progress blind_cases ].
Qed.

Lemma blind_queryLLM config prompt : latency_blind (queryLLM config prompt).
Proof.
  unfold queryLLM. apply blind_bind; [| intros; apply blind_ret].
  blind_cases; auto using blind_throw, blind_OpenAI, blind_Ollama.
Qed.

Lemma lagging_start d : lagging d start start.
Proof. split; simpl; [reflexivity | lia]. Qed.

(** C1, as amended.  The gateway sets no deadline and cancels nothing: when
    every reply of the network is held back by [d] more milliseconds, for any
    [d], [queryLLM] gives the same result and sends the same requests, and it
    has simply waited [d] milliseconds longer for each of them. *)
Theorem queryLLM_sets_no_deadline (config : ILLMClientConfig.t) (prompt : string)
    (net : Network) (d : N) :
  let slow := queryLLM config prompt (delay d net) start in
  let fast := queryLLM config prompt net start in
  slow.1 = fast.1
  ∧ calls slow.2 = calls fast.2
  ∧ elapsed slow.2 = (elapsed fast.2 + d * N.of_nat (length (calls fast.2)))%N.
Proof.
  destruct (blind_queryLLM config prompt net d start start (lagging_start d))
    as [Hr [Hc He]].
  auto.
Qed.

(** C1, refuted as stated: no deadline, of whatever length, is enforced.  For
    the local model and a network that answers after one millisecond more than
    the deadline, [queryLLM] succeeds with the late reply. *)
Lemma queryLLM_deadline_counterexample : ¬ ∃ deadline, enforces_deadline deadline.
Proof.
  intros [d H].
  pose (net := answering (d + 1) (Text.quoted "{'response':'{}'}")).
  assert (E : queryLLM local_config "prompt" net start =
              (Ok {| ILLMResponse.content := JString "{}";
                     ILLMResponse.model := "ollama-free" |},
               {| calls := [OllamaClient.request (OllamaClient.new None None) "prompt"];
                  elapsed := (0 + (d + 1))%N |}))
    by (vm_compute; reflexivity).
  specialize (H _ _ _ _ _ E). simpl in H.
  assert (L : (d < 0 + (d + 1))%N) by lia.
  specialize (H L). discriminate H.
Qed.

Lemma missing_key_throws config prompt net tr :
  String.eqb (ILLMClientConfig.model config) "openai-gpt4"
  || String.eqb (ILLMClientConfig.model config) "openai-gpt3.5" = true →
  missing (ILLMClientConfig.apiKey config) →
  queryLLM config prompt net tr = (Err (Error "OpenAI API key is required"), tr).
Proof.
  intros Hm Hk. unfold queryLLM. rewrite Hm.
  destruct Hk as [-> | ->]; reflexivity.
Qed.

(** C5.  A hosted model without a key makes [queryLLM] fail with the error
    'OpenAI API key is required' and leaves the trace as it was: no request
    has been sent.  A model outside the three identities makes it fail with an
    error that names the model, again without any request.  (The program has
    one class of errors, [Error]; the kinds are told by their messages.) *)
Theorem queryLLM_rejects_bad_config (config : ILLMClientConfig.t) (prompt : string)
    (net : Network) (tr : Trace) :
  (is_hosted (ILLMClientConfig.model config) →
   missing (ILLMClientConfig.apiKey config) →
   queryLLM config prompt net tr = (Err (Error "OpenAI API key is required"), tr))
  ∧ (¬ known_model (ILLMClientConfig.model config) →
     queryLLM config prompt net tr
     = (Err (Error ("Unknown model: " +:+ ILLMClientConfig.model config)), tr)).
Proof.
  split.
  - intros Hh Hk. apply missing_key_throws; [| exact Hk].
    destruct Hh as [-> | ->]; reflexivity.
  - intros Hn. unfold queryLLM.
    destruct (String.eqb_spec (ILLMClientConfig.model config) "openai-gpt4") as [E | _];
      [exfalso; apply Hn; left; left; exact E |].
    destruct (String.eqb_spec (ILLMClientConfig.model config) "openai-gpt3.5") as [E | _];
      [exfalso; apply Hn; left; right; exact E |].
    destruct (String.eqb_spec (ILLMClientConfig.model config) "ollama-free") as [E | _];
      [exfalso; apply Hn; right; exact E |].
    reflexivity.
Qed.

Lemma queryLLM_rejects_bad_config_witness :
  (is_hosted "openai-gpt4" ∧ missing None
   ∧ queryLLM (hosted_config None) "prompt" (answering 0 "{}") start
     = (Err (Error "OpenAI API key is required"), start))
  ∧ (¬ known_model "claude"
     ∧ queryLLM {| ILLMClientConfig.model := "claude";
                   ILLMClientConfig.apiKey := None;
                   ILLMClientConfig.baseURL := None |} "prompt" (answering 0 "{}") start
       = (Err (Error "Unknown model: claude"), start)).
Proof.
  assert (H1 : is_hosted "openai-gpt4") by (left; reflexivity).
  assert (H2 : missing None) by (left; reflexivity).
  assert (H3 : ¬ known_model "claude")
    by (intros [[H | H] | H]; discriminate H).
  split.
  - split; [exact H1 | split; [exact H2 |]].
    exact (proj1 (queryLLM_rejects_bad_config (hosted_config None) "prompt"
                    (answering 0 "{}") start) H1 H2).
  - split; [exact H3 |].
    exact (proj2 (queryLLM_rejects_bad_config
                    {| ILLMClientConfig.model := "claude";
                       ILLMClientConfig.apiKey := None;
                       ILLMClientConfig.baseURL := None |} "prompt"
                    (answering 0 "{}") start) H3).
Defined.

(** C7.  When the hosted backend answers with a success status and a body
    whose [choices] is an array without elements, [OpenAIClient.query] returns
    the empty text, and so [queryLLM] succeeds with the empty text as content. *)
Theorem OpenAI_no_choice_gives_empty_text (this : OpenAIClient.t) (prompt : string)
    (net : Network) (tr : Trace) (response : Response) (data : JSValue) :
  settled (net (OpenAIClient.request this prompt)) = Resolved response →
  ok response = true →
  json response = Ok data →
  JS.Get data "choices" = Ok (Some (JArray [])) →
  (OpenAIClient.query this prompt net tr).1 = Ok (JString "")
  ∧ ∀ config key,
      is_hosted (ILLMClientConfig.model config) →
      ILLMClientConfig.apiKey config = Some key → key ≠ "" →
      this = OpenAIClient.new key
               (if String.eqb (ILLMClientConfig.model config) "openai-gpt4"
                then "gpt-4" else "gpt-3.5-turbo") →
      (queryLLM config prompt net tr).1
      = Ok {| ILLMResponse.content := JString "";
              ILLMResponse.model := ILLMClientConfig.model config |}.
Proof.
  intros Hnet Hok Hjson Hchoices.
  assert (Q : (OpenAIClient.query this prompt net tr).1 = Ok (JString "")).
  { unfold OpenAIClient.query, mbind, IO_bind, fetch, lift.
    rewrite Hnet, Hok; simpl. rewrite Hjson, Hchoices. reflexivity. }
  split; [exact Q |].
  intros config key Hh Hkey Hne ->.
  unfold queryLLM, mbind, IO_bind.
  replace (String.eqb (ILLMClientConfig.model config) "openai-gpt4"
           || String.eqb (ILLMClientConfig.model config) "openai-gpt3.5") with true
    by (destruct Hh as [-> | ->]; reflexivity).
  rewrite Hkey. destruct key as [| c key]; [congruence |]. change (Text.is_empty (String c key)) with false. cbv iota.
  match goal with
  | |- context [OpenAIClient.query ?t prompt net tr] =>
      destruct (OpenAIClient.query t prompt net tr) as [r tr'] eqn:E
  end.
  simpl in Q. subst r. reflexivity.
Qed.

Lemma OpenAI_no_choice_gives_empty_text_witness :
  let this := OpenAIClient.new "sk-test" "gpt-4" in
  let net := answering 0 (Text.quoted "{'choices':[]}") in
  let response :=
    {| ok := true; statusText := "OK"; text := Text.quoted "{'choices':[]}" |} in
  let data := JObject [("choices", JArray [])] in
  settled (net (OpenAIClient.request this "prompt")) = Resolved response
  ∧ ok response = true
  ∧ json response = Ok data
  ∧ JS.Get data "choices" = Ok (Some (JArray []))
  ∧ (OpenAIClient.query this "prompt" net start).1 = Ok (JString "").
Proof.
  intros this net response data.
  assert (H1 : settled (net (OpenAIClient.request this "prompt")) = Resolved response)
    by reflexivity.
  assert (H2 : ok response = true) by reflexivity.
  assert (H3 : json response = Ok data) by reflexivity.
  assert (H4 : JS.Get data "choices" = Ok (Some (JArray []))) by reflexivity.
  split; [exact H1 |]. split; [exact H2 |]. split; [exact H3 |]. split; [exact H4 |].
  exact (proj1 (OpenAI_no_choice_gives_empty_text this "prompt" net start
                  response data H1 H2 H3 H4)).
Defined.

Lemma Ollama_rethrows this prompt net tr name message :
  settled (net (OllamaClient.request this prompt)) = Rejected (ThrownError name message) →
  Text.includes message "model" && Text.includes message "not found" = false →
  (OllamaClient.query this prompt net tr).1 = Err (ThrownError name message).
Proof.
  intros Hnet Hinc.
  unfold OllamaClient.query, try_catch, mbind, IO_bind, fetch.
  rewrite Hnet; simpl. rewrite Hinc. reflexivity.
Qed.

(** The part of C6 that the code has: a failure status whose error message
    matches the pattern gives the error that names the model to install. *)
Lemma Ollama_model_absent this prompt net tr response message :
  settled (net (OllamaClient.request this prompt)) = Resolved response →
  ok response = false →
  (errorData ← JSON.parse (text response); JS.Get errorData "error")
  = Ok (Some (JString message)) →
  Text.includes message "model" && Text.includes message "not found" = true →
  (OllamaClient.query this prompt net tr).1
  = Err (Error ("Ollama model '" +:+ OllamaClient.model this +:+
                "' not found. Install it with: ollama pull " +:+ OllamaClient.model this)).
Proof.
  intros Hnet Hok Herr Hinc.
  apply andb_true_iff in Hinc as [H1 H2].
  unfold OllamaClient.query, try_catch, mbind at 1, IO_bind, fetch.
  rewrite Hnet, Hok; simpl negb; cbv iota.
  rewrite Herr.
  destruct message as [| c message]; [discriminate H1 |].
  unfold JS.or_else, JS.truthy, Text.is_empty, negb.
  unfold JS.ToString, lift, mbind, IO_bind, throw. simpl fst.
  unfold Error. cbv iota beta.
  change (Text.starts_with "model" (String c message)
          || Text.includes message "model")
    with (Text.includes (String c message) "model").
  change (Text.starts_with "not found" (String c message)
          || Text.includes message "not found")
    with (Text.includes (String c message) "not found").
  rewrite H1, H2. reflexivity.
Qed.

Example Ollama_model_absent_example :
  (OllamaClient.query (OllamaClient.new None None) "prompt"
     (refusing "Not Found"
        (Text.quoted "{'error':'model \'llama2\' not found, try pulling it first'}"))
     start).1
  = Err (Error "Ollama model 'llama2' not found. Install it with: ollama pull llama2").
Proof. vm_compute. reflexivity. Qed.

(** A failure status whose body is not JSON gives the generic error with the
    status text. *)
Example Ollama_protocol_error_example :
  (OllamaClient.query (OllamaClient.new None None) "prompt"
     (refusing "Internal Server Error" "upstream crashed") start).1
  = Err (Error "Ollama API error: Internal Server Error").
Proof. vm_compute. reflexivity. Qed.

(** C6, at the input on which the code departs from it.  With no server
    listening, [fetch] rejects with a [TypeError]; the [catch] clause of
    [OllamaClient.query] finds an instance of [Error] whose message does not
    match the pattern and throws it again as it is.  The error that names the
    endpoint is not the one thrown, and the message thrown does not name the
    endpoint. *)
Theorem Ollama_connection_fault_is_rethrown :
  let this := OllamaClient.new None None in
  (OllamaClient.query this "prompt" unreachable start).1
  = Err (TypeError "Failed to fetch")
  ∧ (OllamaClient.query this "prompt" unreachable start).1
    ≠ Err (Error ("Unable to connect to Ollama at " +:+ OllamaClient.baseURL this +:+
                  ". Make sure Ollama is running on the correct port."))
  ∧ Text.includes "Failed to fetch" (OllamaClient.baseURL this) = false.
Proof.
  split; [reflexivity | split; [discriminate | reflexivity]].
Qed.

(** ** The two patterns *)

Lemma app_cons (a : ascii) (s r : string) : String a s +:+ r = String a (s +:+ r).
Proof. reflexivity. Qed.

Lemma app_nil (r : string) : "" +:+ r = r.
Proof. reflexivity. Qed.

Lemma append_assoc (a b c : string) : (a +:+ b) +:+ c = a +:+ b +:+ c.
Proof. induction a as [| x a IH]; [reflexivity |]. rewrite !app_cons, IH. reflexivity. Qed.

Lemma strip_prefix_app (p s r : string) :
  Text.strip_prefix p s = Some r → s = p +:+ r.
Proof.
  revert s. induction p as [| a p IH]; intros s H; simpl in *.
  - injection H as ->. reflexivity.
  - destruct s as [| b s]; [discriminate |].
    destruct (Ascii.eqb_spec a b) as [-> | _]; [| discriminate].
    rewrite ?app_cons, ?app_nil. f_equal. apply IH, H.
Qed.

Lemma strip_prefix_complete (p r : string) : Text.strip_prefix p (p +:+ r) = Some r.
Proof.
  induction p as [| a p IH]; rewrite ?app_cons, ?app_nil; simpl; [reflexivity |].
  rewrite Ascii.eqb_refl. exact IH.
Qed.

Lemma starts_with_app (p s : string) :
  Text.starts_with p s = true → ∃ r, s = p +:+ r.
Proof.
  unfold Text.starts_with. destruct (Text.strip_prefix p s) as [r |] eqn:E; [| discriminate].
  intros _. exists r. apply strip_prefix_app, E.
Qed.

Lemma closes_fence_app (s : string) :
  Text.closes_fence s = true →
  ∃ n2 post, s = n2 +:+ "```" +:+ post ∧ (n2 = "" ∨ n2 = Text.nl).
Proof.
  unfold Text.closes_fence. intros H. apply orb_true_iff in H as [H | H];
    apply starts_with_app in H as [r ->].
  - exists Text.nl, r. split; [reflexivity | right; reflexivity].
  - exists "", r. split; [reflexivity | left; reflexivity].
Qed.

Lemma lazy_capture_app (s c : string) :
  Text.lazy_capture s = Some c →
  ∃ n2 post, s = c +:+ n2 +:+ "```" +:+ post ∧ (n2 = "" ∨ n2 = Text.nl).
Proof.
  revert c. induction s as [| a s IH]; intros c.
  - intros H. discriminate H.
  - change (Text.lazy_capture (String a s))
      with (if Text.closes_fence (String a s) then Some ""
            else option_map (String a) (Text.lazy_capture s)).
    destruct (Text.closes_fence (String a s)) eqn:E.
    + intros [= <-]. apply closes_fence_app, E.
    + destruct (Text.lazy_capture s) as [c' |]; [| discriminate].
      intros [= <-]. destruct (IH c' eq_refl) as (n2 & post & -> & Hn).
      exists n2, post. split; [reflexivity | exact Hn].
Qed.

Lemma lazy_capture_complete (mid post : string) :
  Text.lazy_capture (mid +:+ "```" +:+ post) ≠ None.
Proof.
  induction mid as [| a mid IH].
  - simpl. discriminate.
  - change (String a mid +:+ "```" +:+ post) with (String a (mid +:+ "```" +:+ post)).
    simpl. destruct (Text.closes_fence _); [discriminate |].
    destruct (Text.lazy_capture (mid +:+ "```" +:+ post)); [discriminate | contradiction].
Qed.

Lemma match_fence_at_app (s c : string) :
  Text.match_fence_at s = Some c →
  ∃ n1 n2 post,
    s = "```json" +:+ n1 +:+ c +:+ n2 +:+ "```" +:+ post
    ∧ (n1 = "" ∨ n1 = Text.nl) ∧ (n2 = "" ∨ n2 = Text.nl).
Proof.
  unfold Text.match_fence_at.
  destruct (Text.strip_prefix "```json" s) as [r |] eqn:E; [| discriminate].
  apply strip_prefix_app in E. subst s.
  destruct (Text.strip_prefix Text.nl r) as [r' |] eqn:E'.
  - apply strip_prefix_app in E'. subst r.
    destruct (Text.lazy_capture r') as [c' |] eqn:L.
    + intros [= <-]. apply lazy_capture_app in L as (n2 & post & -> & Hn).
      exists Text.nl, n2, post. split; [reflexivity | split; [right; reflexivity | exact Hn]].
    + intros L'. apply lazy_capture_app in L' as (n2 & post & L' & Hn).
      exists "", n2, post. split; [rewrite L'; reflexivity | split; [left; reflexivity | exact Hn]].
  - intros L. apply lazy_capture_app in L as (n2 & post & -> & Hn).
    exists "", n2, post. split; [reflexivity | split; [left; reflexivity | exact Hn]].
Qed.

Lemma match_fence_at_complete (mid post : string) :
  Text.match_fence_at ("```json" +:+ mid +:+ "```" +:+ post) ≠ None.
Proof.
  unfold Text.match_fence_at.
  rewrite (strip_prefix_complete "```json" (mid +:+ "```" +:+ post)).
  pose proof (lazy_capture_complete mid post) as L.
  destruct (Text.strip_prefix Text.nl _); [| exact L].
  destruct (Text.lazy_capture s); [discriminate | exact L].
Qed.

Lemma match_fenced_eq (s : string) :
  Text.match_fenced s =
  match Text.match_fence_at s with
  | Some c => Some c
  | None => match s with "" => None | String _ r => Text.match_fenced r end
  end.
Proof. destruct s; reflexivity. Qed.

Lemma match_fenced_sound (s interior : string) :
  Text.match_fenced s = Some interior → fenced_in s interior.
Proof.
  induction s as [| a s IH]; rewrite match_fenced_eq.
  - destruct (Text.match_fence_at "") as [c |] eqn:E; [| discriminate].
    intros [= <-]. apply match_fence_at_app in E as (n1 & n2 & post & E & H1 & H2).
    exists "", n1, n2, post. auto.
  - destruct (Text.match_fence_at (String a s)) as [c |] eqn:E.
    + intros [= <-]. apply match_fence_at_app in E as (n1 & n2 & post & E & H1 & H2).
      exists "", n1, n2, post. auto.
    + intros H. destruct (IH H) as (pre & n1 & n2 & post & -> & H1 & H2).
      exists (String a pre), n1, n2, post. auto.
Qed.

Lemma match_fenced_complete (s : string) :
  Text.match_fenced s = None → ¬ has_fence s.
Proof.
  intros H (pre & mid & post & ->). revert H.
  induction pre as [| a pre IH]; rewrite ?app_cons, ?app_nil; rewrite match_fenced_eq.
  - pose proof (match_fence_at_complete mid post) as L.
    destruct (Text.match_fence_at _); [discriminate | contradiction].
  - destruct (Text.match_fence_at _); [discriminate | exact IH].
Qed.

Lemma upto_last_brace_sound (s t : string) :
  Text.upto_last_brace s = Some t →
  ∃ mid post, t = mid +:+ "}" ∧ s = t +:+ post ∧ ¬ occurs "}" post.
Proof.
  revert t. induction s as [| a s IH]; intros t; simpl; [discriminate |].
  destruct (Text.upto_last_brace s) as [t' |] eqn:E.
  - intros [= <-]. destruct (IH t' eq_refl) as (mid & post & -> & Hs & Hp).
    exists (String a mid), post. split; [reflexivity |].
    split; [rewrite ?app_cons, ?app_nil; f_equal; exact Hs | exact Hp].
  - destruct (Ascii.eqb_spec a "}") as [-> | _]; [| discriminate].
    intros [= <-]. exists "", s. split; [reflexivity |].
    split; [reflexivity |].
    clear IH. induction s as [| b s IHs]; simpl in *; [tauto |].
    destruct (Text.upto_last_brace s); [discriminate |].
    destruct (Ascii.eqb_spec b "}") as [-> | Hb]; [discriminate |].
    intros [Hc | Hc]; [exact (Hb Hc) | exact (IHs eq_refl Hc)].
Qed.

Lemma upto_last_brace_complete (mid post : string) :
  Text.upto_last_brace (mid +:+ "}" +:+ post) ≠ None.
Proof.
  induction mid as [| a mid IH]; rewrite ?app_cons, ?app_nil; simpl.
  - destruct (Text.upto_last_brace post); discriminate.
  - destruct (Text.upto_last_brace _); [discriminate | contradiction].
Qed.

Lemma match_braces_complete (s : string) :
  Text.match_braces s = None → ¬ has_braces s.
Proof.
  intros H (pre & mid & post & ->). revert H.
  induction pre as [| a pre IH]; rewrite ?app_cons, ?app_nil; simpl.
  - pose proof (upto_last_brace_complete mid post) as L.
    destruct (Text.upto_last_brace _); [discriminate | contradiction].
  - destruct (Ascii.eqb a "{"); [| exact IH].
    destruct (Text.upto_last_brace _); [discriminate | exact IH].
Qed.

Lemma match_braces_sound (s span : string) :
  Text.match_braces s = Some span → brace_span s span.
Proof.
  induction s as [| a s IH]; simpl; [discriminate |].
  destruct (Ascii.eqb_spec a "{") as [-> | Ha].
  - destruct (Text.upto_last_brace s) as [t |] eqn:E.
    + intros [= <-]. apply upto_last_brace_sound in E as (mid & post & -> & -> & Hp).
      exists "", mid, post. split; [reflexivity |].
      split; [reflexivity |]. split; [simpl; tauto | exact Hp].
    + intros H. exfalso.
      destruct (IH H) as (pre & mid & post & Hs & -> & _).
      assert (L : Text.upto_last_brace s ≠ None).
      { rewrite Hs. clear.
        replace (pre +:+ ("{" +:+ mid +:+ "}") +:+ post)
          with ((pre +:+ "{" +:+ mid) +:+ "}" +:+ post).
        - apply upto_last_brace_complete.
        - rewrite !append_assoc. rewrite ?app_cons, ?app_nil. reflexivity. }
      contradiction.
  - intros H. destruct (IH H) as (pre & mid & post & -> & -> & Hpre & Hpost).
    exists (String a pre), mid, post. split; [reflexivity |].
    split; [reflexivity |]. split; [| exact Hpost].
    simpl. intros [Hc | Hc]; [exact (Ha Hc) | exact (Hpre Hc)].
Qed.

(** The text handed to [JSON.parse], in the order of the policy. *)
Lemma select_json_policy (content : string) :
  (∃ interior, Text.match_fenced content = Some interior
               ∧ select_json content = interior ∧ fenced_in content interior)
  ∨ (¬ has_fence content
     ∧ ∃ span, select_json content = span ∧ brace_span content span)
  ∨ (¬ has_fence content ∧ ¬ has_braces content ∧ select_json content = content).
Proof.
  unfold select_json.
  destruct (Text.match_fenced content) as [interior |] eqn:F.
  - left. exists interior. auto using match_fenced_sound.
  - apply match_fenced_complete in F. right.
    destruct (Text.match_braces content) as [span |] eqn:B.
    + left. split; [exact F |]. exists span. auto using match_braces_sound.
    + right. auto using match_braces_complete.
Qed.

(** ** [JSON.parse] does not depend on its fuel *)

Lemma skip_ws_length (s : string) : (String.length (JSON.skip_ws s) ≤ String.length s)%nat.
Proof.
  induction s as [| c s IH]; simpl; [lia |].
  destruct (JSON.is_ws c); simpl; lia.
Qed.

Lemma strip_prefix_length (p s r : string) :
  Text.strip_prefix p s = Some r → (String.length r ≤ String.length s)%nat.
Proof.
  revert s. induction p as [| a p IH]; intros s; simpl.
  - intros [= ->]. lia.
  - destruct s as [| b s]; [discriminate |].
    destruct (Ascii.eqb a b); [| discriminate].
    intros H. apply IH in H. simpl. lia.
Qed.

Lemma strip_prefix_cons_length (a : ascii) (p s r : string) :
  Text.strip_prefix (String a p) s = Some r → (String.length r < String.length s)%nat.
Proof.
  destruct s as [| b s]; simpl; [discriminate |].
  destruct (Ascii.eqb a b); [| discriminate].
  intros H. apply strip_prefix_length in H. lia.
Qed.

Lemma read_digits_length (s : string) (acc count a c : Z) (r : string) :
  JSON.read_digits s acc count = (a, c, r) → (String.length r ≤ String.length s)%nat.
Proof.
  revert acc count. induction s as [| x s IH]; intros acc count; simpl.
  - intros [= <- <- <-]. simpl. lia.
  - destruct (JS.digit_val x).
    + intros H. apply IH in H. lia.
    + intros [= <- <- <-]. simpl. lia.
Qed.

(** Puts among the hypotheses what two lemmas, on the rest of a prefix and on
    the rest of a run of digits, say of the length of the texts at hand. *)
Ltac lengths_by prefix_length digits_length :=
  repeat match goal with
         | H : Text.strip_prefix _ _ = Some _ |- _ => apply prefix_length in H
         | H : JSON.read_digits _ _ _ = (_, _, _) |- _ => apply digits_length in H
         end;
  simpl String.length in *.

Lemma parse_number_length (s : string) (x : Num.t) (r : string) :
  JSON.parse_number s = Some (x, r) → (String.length r ≤ String.length s)%nat.
Proof.
  unfold JSON.parse_number. intros H.
  repeat case_match; simplify_eq; lengths_by strip_prefix_length read_digits_length; lia.
Qed.

Lemma read_hex4_length (s : string) (n : N) (r : string) :
  JSON.read_hex4 s = Some (n, r) → (String.length r ≤ String.length s)%nat.
Proof.
  unfold JSON.read_hex4. intros H. repeat case_match; simplify_eq. simpl. lia.
Qed.

Lemma trailing_surrogate_length (hi : N) (s : string) (n : N) (r : string) :
  JSON.trailing_surrogate hi s = Some (n, r) → (String.length r ≤ String.length s)%nat.
Proof.
  unfold JSON.trailing_surrogate. intros H. repeat case_match; simplify_eq.
  match goal with H : JSON.read_hex4 _ = _ |- _ => apply read_hex4_length in H end.
  lengths_by strip_prefix_length read_digits_length. lia.
Qed.

Lemma parse_chars_length (fuel : nat) (s t r : string) :
  JSON.parse_chars fuel s = Some (t, r) → (String.length r ≤ String.length s)%nat.
Proof.
  revert s t r. induction fuel as [| f IH]; intros s t r; simpl; [discriminate |].
  intros H. repeat case_match; simplify_eq;
    repeat match goal with
           | H : JSON.parse_chars f _ = Some _ |- _ => apply IH in H
           | H : JSON.read_hex4 _ = Some _ |- _ => apply read_hex4_length in H
           | H : JSON.trailing_surrogate _ _ = Some _ |- _ =>
               apply trailing_surrogate_length in H
           end; simpl in *; lia.
Qed.

Lemma parse_string_length (s t r : string) :
  JSON.parse_string s = Some (t, r) → (String.length r ≤ String.length s)%nat.
Proof. apply parse_chars_length. Qed.

Lemma value_body_shrinking elements members :
  JSON.shrinking elements → (∀ acc, JSON.shrinking (λ s, members s acc)) →
  JSON.shrinking (JSON.value_body elements members).
Proof.
  intros He Hm s v rest. unfold JSON.value_body.
  pose proof (skip_ws_length s) as Hs.
  destruct (JSON.skip_ws s) as [| c r] eqn:E; [discriminate |].
  intros H. repeat case_match; simplify_eq;
    repeat match goal with
           | H : elements _ = Some _ |- _ => apply He in H
           | H : members _ _ = Some _ |- _ => apply (Hm []) in H
           | H : JSON.parse_string _ = Some _ |- _ => apply parse_string_length in H
           | H : JSON.parse_number _ = Some _ |- _ => apply parse_number_length in H
           | H : context [JSON.skip_ws ?x] |- _ =>
               lazymatch goal with
               | _ : (String.length (JSON.skip_ws x) ≤ String.length x)%nat |- _ => fail
               | _ => pose proof (skip_ws_length x)
               end
           end; lengths_by strip_prefix_length read_digits_length; lia.
Qed.

Lemma elements_body_shrinking value elements :
  JSON.shrinking value → JSON.shrinking elements →
  JSON.shrinking (JSON.elements_body value elements).
Proof.
  intros Hv He s vs rest. unfold JSON.elements_body.
  destruct (value s) as [[v r] |] eqn:V; [| discriminate]. apply Hv in V.
  pose proof (skip_ws_length r) as Hr.
  destruct (JSON.skip_ws r) as [| c r']; [discriminate |].
  intros H. repeat case_match; simplify_eq;
    repeat match goal with
           | H : elements _ = Some _ |- _ => apply He in H
           end; lengths_by strip_prefix_length read_digits_length; lia.
Qed.

Lemma members_body_shrinking value members :
  JSON.shrinking value → (∀ acc, JSON.shrinking (λ s, members s acc)) →
  ∀ acc, JSON.shrinking (λ s, JSON.members_body value members s acc).
Proof.
  intros Hv Hm acc s o rest. unfold JSON.members_body.
  pose proof (skip_ws_length s) as Hs.
  destruct (Text.strip_prefix Text.dq (JSON.skip_ws s)) as [r |] eqn:E; [| discriminate].
  destruct (JSON.parse_string r) as [[key r1] |] eqn:K; [| discriminate].
  pose proof (skip_ws_length r1) as H1.
  destruct (Text.strip_prefix ":" (JSON.skip_ws r1)) as [r2 |] eqn:C; [| discriminate].
  destruct (value r2) as [[v r3] |] eqn:V; [| discriminate].
  pose proof (skip_ws_length r3) as H3.
  apply Hv in V. apply parse_string_length in K.
  destruct (JSON.skip_ws r3) as [| c r4]; [discriminate |].
  intros H. repeat case_match; simplify_eq;
    repeat match goal with
           | H : members _ _ = Some _ |- _ => apply Hm in H
           end; lengths_by strip_prefix_length read_digits_length; lia.
Qed.

Lemma parsers_shrinking (fuel : nat) :
  JSON.shrinking (JSON.parse_value fuel)
  ∧ JSON.shrinking (JSON.parse_elements fuel)
  ∧ ∀ acc, JSON.shrinking (λ s, JSON.parse_members fuel s acc).
Proof.
  induction fuel as [| f (Hv & He & Hm)].
  - repeat split; intros ? ? ? ?; discriminate.
  - split; [| split].
    + apply value_body_shrinking; assumption.
    + apply elements_body_shrinking; assumption.
    + apply members_body_shrinking; assumption.
Qed.

Lemma value_body_ext e1 e2 m1 m2 (s : string) :
  (∀ r, (String.length r < String.length s)%nat → e1 r = e2 r) →
  (∀ r acc, (String.length r < String.length s)%nat → m1 r acc = m2 r acc) →
  JSON.value_body e1 m1 s = JSON.value_body e2 m2 s.
Proof.
  intros He Hm. unfold JSON.value_body.
  pose proof (skip_ws_length s) as Hs.
  destruct (JSON.skip_ws s) as [| c r]; [reflexivity |]. simpl in Hs.
  rewrite He, Hm by lia. reflexivity.
Qed.

Lemma elements_body_ext v1 v2 e1 e2 (s : string) :
  v1 s = v2 s → JSON.shrinking v1 →
  (∀ r, (String.length r < String.length s)%nat → e1 r = e2 r) →
  JSON.elements_body v1 e1 s = JSON.elements_body v2 e2 s.
Proof.
  intros Hv Hs He. unfold JSON.elements_body. rewrite <- Hv.
  destruct (v1 s) as [[v r] |] eqn:V; [| reflexivity]. apply Hs in V.
  pose proof (skip_ws_length r) as Hr.
  destruct (JSON.skip_ws r) as [| c r']; [reflexivity |]. simpl in Hr.
  rewrite He by lia. reflexivity.
Qed.

Lemma members_body_ext v1 v2 m1 m2 (s : string) (acc : list (string * JSValue)) :
  (∀ r, (String.length r < String.length s)%nat → v1 r = v2 r) →
  JSON.shrinking v1 →
  (∀ r acc, (String.length r < String.length s)%nat → m1 r acc = m2 r acc) →
  JSON.members_body v1 m1 s acc = JSON.members_body v2 m2 s acc.
Proof.
  intros Hv Hs Hm. unfold JSON.members_body.
  pose proof (skip_ws_length s) as H0.
  destruct (Text.strip_prefix Text.dq (JSON.skip_ws s)) as [r |] eqn:E; [| reflexivity].
  apply (strip_prefix_cons_length (ascii_of_nat 34) "") in E.
  destruct (JSON.parse_string r) as [[key r1] |] eqn:K; [| reflexivity].
  apply parse_string_length in K.
  pose proof (skip_ws_length r1) as H1.
  destruct (Text.strip_prefix ":" (JSON.skip_ws r1)) as [r2 |] eqn:C; [| reflexivity].
  apply strip_prefix_length in C.
  rewrite <- Hv by lia.
  destruct (v1 r2) as [[v r3] |] eqn:V; [| reflexivity]. apply Hs in V.
  pose proof (skip_ws_length r3) as H3.
  destruct (JSON.skip_ws r3) as [| c r4]; [reflexivity |]. simpl in H3.
  rewrite Hm by lia. reflexivity.
Qed.

Lemma parsers_stable (n : nat) :
  (∀ s, (String.length s ≤ n)%nat → ∀ f g, (2 * n + 1 ≤ f)%nat → (2 * n + 1 ≤ g)%nat →
     JSON.parse_value f s = JSON.parse_value g s)
  ∧ (∀ s, (String.length s ≤ n)%nat → ∀ f g, (2 * n + 2 ≤ f)%nat → (2 * n + 2 ≤ g)%nat →
       JSON.parse_elements f s = JSON.parse_elements g s)
  ∧ (∀ s acc, (String.length s ≤ n)%nat → ∀ f g, (2 * n + 2 ≤ f)%nat → (2 * n + 2 ≤ g)%nat →
       JSON.parse_members f s acc = JSON.parse_members g s acc).
Proof.
  induction n as [n IH] using lt_wf_ind.
  assert (V : ∀ s, (String.length s ≤ n)%nat → ∀ f g,
             (2 * n + 1 ≤ f)%nat → (2 * n + 1 ≤ g)%nat →
             JSON.parse_value f s = JSON.parse_value g s).
  { intros s Hs [| f] [| g] Hf Hg; try lia. simpl.
    apply value_body_ext.
    - intros r Hr. apply (IH (String.length r)); lia.
    - intros r acc Hr. apply (IH (String.length r)); lia. }
  split; [exact V |]. split.
  - intros s Hs [| f] [| g] Hf Hg; try lia. simpl.
    apply elements_body_ext.
    + apply V; lia.
    + apply parsers_shrinking.
    + intros r Hr. apply (IH (String.length r)); lia.
  - intros s acc Hs [| f] [| g] Hf Hg; try lia. simpl.
    apply members_body_ext.
    + intros r Hr. apply (IH (String.length r)); lia.
    + apply parsers_shrinking.
    + intros r acc' Hr. apply (IH (String.length r)); lia.
Qed.

(** The answer of [JSON.parse] is not an effect of the bound on the depth of
    the calls: with any larger bound the answer is the same. *)
Theorem JSON_parse_fuel (s : string) (fuel : nat) :
  (JSON.enough s ≤ fuel)%nat → JSON.parse_with fuel s = JSON.parse s.
Proof.
  intros H. unfold JSON.parse, JSON.parse_with, JSON.enough in *.
  rewrite (proj1 (parsers_stable (String.length s)) s (le_n _)
             fuel (2 * String.length s + 2)) by lia.
  reflexivity.
Qed.

(** ** The response extractor *)

Lemma JSON_parse_error (s : string) (e : Thrown) :
  JSON.parse s = Err e → ∃ message, e = SyntaxError message.
Proof.
  unfold JSON.parse, JSON.parse_with.
  destruct (JSON.parse_value _ s) as [[v rest] |].
  - destruct (Text.is_empty _); [discriminate |]. intros [= <-]. eauto.
  - intros [= <-]. eauto.
Qed.

Lemma non_empty_filled (x : option string) : filled (non_empty x).
Proof. destruct x as [[| c s] |]; simpl; [exact I | discriminate | exact I]. Qed.

(** The body of the [try] block on a completion that is a text: the chosen
    text is parsed and, unless the value is [null], every field is read. *)
Lemma parse_body_text (question model content : string) :
  parse_body question (llm_reply model content) =
  match JSON.parse (select_json content) with
  | Err e => Err e
  | Ok JNull => Err (TypeError "Cannot read properties of null (reading 'service')")
  | Ok parsed => Ok (normalized question parsed, llm_reply model content)
  end.
Proof.
  unfold parse_body, llm_reply, normalized; simpl.
  destruct (JSON.parse (select_json content)) as [parsed | e]; [| reflexivity].
  destruct parsed; try reflexivity.
  simpl. destruct (JS.lookup_prop props "tags"); reflexivity.
Qed.

Lemma normalized_invariant (question : string) (parsed : JSValue) :
  let p := normalized question parsed in
  filled (IParsedQuery.service p) ∧ filled (IParsedQuery.operation p)
  ∧ filled (IParsedQuery.minDuration p) ∧ filled (IParsedQuery.maxDuration p)
  ∧ IParsedQuery.tags p ≠ Some []
  ∧ IParsedQuery.natural_language_question p = question.
Proof.
  unfold normalized; cbn [IParsedQuery.service IParsedQuery.operation
    IParsedQuery.minDuration IParsedQuery.maxDuration IParsedQuery.tags
    IParsedQuery.natural_language_question].
  repeat (split; [apply non_empty_filled |]).
  split; [| reflexivity].
  destruct (JS.GetOpt (Some parsed) "tags") as [v |]; [| discriminate].
  destruct (JS.truthy (Some v) && JS.typeof_object v); simpl; [| discriminate].
  destruct (JS.Object_entries v); simpl; discriminate.
Qed.

(** C3, as amended.  The text given to [JSON.parse] is the interior of the
    first fenced [json] block when the completion has one, else the span from
    its first opening brace to its last closing brace when it has one, else
    the whole completion.  When that text is not valid JSON, or is the value
    [null], [parseNaturalLanguageQuery] fails with an [Error] whose message is
    'Failed to parse LLM response as JSON: ' followed by the message of the
    error caught; in every other case it succeeds. *)
Theorem extraction_policy (question model content : string) :
  ((∃ interior, Text.match_fenced content = Some interior
                ∧ select_json content = interior ∧ fenced_in content interior)
   ∨ (¬ has_fence content
      ∧ ∃ span, select_json content = span ∧ brace_span content span)
   ∨ (¬ has_fence content ∧ ¬ has_braces content ∧ select_json content = content))
  ∧ match JSON.parse (select_json content) with
    | Err error =>
        ∃ message, message_of error = Ok message
          ∧ parse_response question (llm_reply model content)
            = Err (parse_failure message)
    | Ok JNull =>
        ∃ message, parse_response question (llm_reply model content)
                   = Err (parse_failure message)
    | Ok _ =>
        ∃ parsed, parse_response question (llm_reply model content)
                  = Ok (parsed, llm_reply model content)
    end.
Proof.
  split; [apply select_json_policy |].
  unfold parse_response. rewrite parse_body_text.
  destruct (JSON.parse (select_json content)) as [parsed | e] eqn:E.
  - destruct parsed; eauto.
  - apply JSON_parse_error in E as [message ->]. exists message. split; reflexivity.
Qed.

(** C3, refuted as stated: the completion [42] has neither a fenced block nor
    a pair of braces, and the extraction succeeds on it. *)
Lemma extraction_counterexample :
  ¬ has_fence "42" ∧ ¬ has_braces "42"
  ∧ is_Ok (parse_response "Show me slow requests" (llm_reply "ollama-free" "42")) = true.
Proof.
  split; [apply match_fenced_complete; reflexivity |].
  split; [apply match_braces_complete; reflexivity |].
  vm_compute. reflexivity.
Qed.

(** The part of C2 that the code has: a status that is absent (or falsy)
    becomes ['all'], and no status makes the extraction fail. *)
Lemma status_defaults (question model content : string) (parsed : JSValue) :
  JSON.parse (select_json content) = Ok parsed → parsed ≠ JNull →
  ∃ p, parse_response question (llm_reply model content) = Ok (p, llm_reply model content)
       ∧ IParsedQuery.status p
         = Some (JS.or_else (JS.GetOpt (Some parsed) "status") (JString "all")).
Proof.
  intros E Hn. unfold parse_response. rewrite parse_body_text, E.
  exists (normalized question parsed).
  destruct parsed; try contradiction; split; reflexivity.
Qed.

(** C2, at the input on which the code departs from it: a status outside
    ['error'], ['success'] and ['all'] is kept as it is. *)
Theorem unrecognized_status_is_kept :
  (IParsedQuery.status ∘ fst) <$>
    parse_response "Find warnings"
      (llm_reply "ollama-free" (Text.quoted "{'service':'user','status':'warning'}"))
  = Ok (Some (JString "warning"))
  ∧ ¬ recognized (Some (JString "warning")).
Proof.
  split; [vm_compute; reflexivity |].
  intros [H | [H | H]]; discriminate H.
Qed.

(** The part of C8 that the code has: the four text fields are absent or not
    empty, the tags are absent or have an entry, and the question is the
    caller's. *)
Lemma parse_response_normalized (question : string) (reply reply' : ILLMResponse.t)
    (p : IParsedQuery.t) :
  parse_response question reply = Ok (p, reply') →
  filled (IParsedQuery.service p) ∧ filled (IParsedQuery.operation p)
  ∧ filled (IParsedQuery.minDuration p) ∧ filled (IParsedQuery.maxDuration p)
  ∧ IParsedQuery.tags p ≠ Some []
  ∧ IParsedQuery.natural_language_question p = question.
Proof.
  destruct reply as [content model].
  unfold parse_response.
  destruct content as [| b | x | content | items | props];
    try (simpl; discriminate).
  change {| ILLMResponse.content := JString content; ILLMResponse.model := model |}
    with (llm_reply model content).
  rewrite parse_body_text.
  destruct (JSON.parse (select_json content)) as [parsed | e];
    [| simpl; destruct (message_of e); discriminate].
  destruct parsed; try discriminate;
    intros [= <- <-]; apply normalized_invariant.
Qed.

(** C8, at the input on which the code departs from it: the value of a tag is
    kept whatever it is, here a number, so the tags are not a mapping to texts. *)
Theorem tag_values_are_not_checked :
  (IParsedQuery.tags ∘ fst) <$>
    parse_response "Find retried requests"
      (llm_reply "ollama-free" (Text.quoted "{'service':'user','tags':{'retries':3}}"))
  = Ok (Some [("retries", number 3 0)])
  ∧ ¬ string_valued [("retries", number 3 0)].
Proof.
  split; [vm_compute; reflexivity |].
  intros H. apply Forall_inv in H as [s H]. discriminate H.
Qed.

(** ** The filter compiler *)

Lemma convert_eq (p : IParsedQuery.t) :
  convertParsedQueryToSearchFilters p =
  filters ← before_status p;
  Ok (if is_status p "error" then with_marker filters ERROR_MARKER
      else if is_status p "success" then with_marker filters OK_MARKER
      else filters).
Proof.
  unfold convertParsedQueryToSearchFilters, before_status.
  destruct (IParsedQuery.tags p) as [[| e es] |]; simpl;
    destruct (is_status p "error"), (is_status p "success"); reflexivity.
Qed.

Lemma before_status_with_status (status : string) (p : IParsedQuery.t) :
  before_status (with_status status p) = before_status p.
Proof. reflexivity. Qed.

Lemma append_non_empty_r (a b : string) : b ≠ "" → a +:+ b ≠ "".
Proof.
  intros Hb. destruct a as [| x a]; rewrite ?app_cons, ?app_nil; [exact Hb | discriminate].
Qed.

Lemma tag_strings_head (e : string * JSValue) (es : list (string * JSValue))
    (strs : list string) :
  tag_strings (e :: es) = Ok strs → Text.join " " strs ≠ "".
Proof.
  destruct e as [key value]. simpl.
  destruct (JS.ToString value) as [v |]; simpl; [| discriminate].
  destruct (tag_strings es) as [rest |]; simpl; [| discriminate].
  intros [= <-].
  assert (H : key +:+ "=" +:+ Text.dq +:+ v +:+ Text.dq ≠ "")
    by (apply append_non_empty_r; discriminate).
  destruct rest as [| r rest]; simpl; [exact H |].
  destruct (key +:+ "=" +:+ Text.dq +:+ v +:+ Text.dq); [contradiction | discriminate].
Qed.

Lemma filter_name_in (key : string) :
  key = "service" ∨ key = "operation" ∨ key = "minDuration"
  ∨ key = "maxDuration" ∨ key = "tags" → key ∈ filter_names.
Proof. unfold filter_names. rewrite !elem_of_cons. tauto. Qed.

Lemma well_formed_empty : well_formed ∅.
Proof. intros key value H. rewrite lookup_empty in H. discriminate. Qed.

Lemma well_formed_insert (key value : string) (filters : gmap string string) :
  key ∈ filter_names → value ≠ "" → well_formed filters →
  well_formed (<[key := value]> filters).
Proof.
  intros Hk Hv Hf k v. rewrite lookup_insert. case_decide as E.
  - intros [= <-]. subst k. auto.
  - apply Hf.
Qed.

Lemma well_formed_copy_field (key : string) (x : option string)
    (filters : gmap string string) :
  key ∈ filter_names → well_formed filters → well_formed (copy_field key x filters).
Proof.
  intros Hk Hf. unfold copy_field.
  pose proof (non_empty_filled x) as Hx.
  destruct (non_empty x) as [s |]; [| exact Hf].
  apply well_formed_insert; assumption.
Qed.

Lemma well_formed_with_marker (filters : gmap string string) (marker : string) :
  marker ≠ "" → well_formed filters → well_formed (with_marker filters marker).
Proof.
  intros Hm Hf. unfold with_marker.
  apply well_formed_insert; [apply filter_name_in; tauto | | exact Hf].
  destruct (Text.is_empty _); [exact Hm |].
  apply append_non_empty_r, append_non_empty_r, Hm.
Qed.

Lemma well_formed_before_status (p : IParsedQuery.t) (filters : gmap string string) :
  before_status p = Ok filters → well_formed filters.
Proof.
  unfold before_status.
  assert (W : well_formed
    (copy_field "maxDuration" (IParsedQuery.maxDuration p)
       (copy_field "minDuration" (IParsedQuery.minDuration p)
          (copy_field "operation" (IParsedQuery.operation p)
             (copy_field "service" (IParsedQuery.service p) ∅))))).
  { repeat (apply well_formed_copy_field; [apply filter_name_in; tauto |]).
    apply well_formed_empty. }
  destruct (IParsedQuery.tags p) as [[| e es] |]; try (intros [= <-]; exact W).
  destruct (tag_strings (e :: es)) as [strs |] eqn:E; simpl; [| discriminate].
  intros [= <-]. apply well_formed_insert; [apply filter_name_in; tauto | | exact W].
  eapply tag_strings_head, E.
Qed.

Lemma copy_field_lookup_ne (key key' : string) (x : option string)
    (filters : gmap string string) :
  key ≠ key' → copy_field key x filters !! key' = filters !! key'.
Proof.
  intros H. unfold copy_field. destruct (non_empty x); [| reflexivity].
  apply lookup_insert_ne, H.
Qed.

(** The tags string that the compiler renders from the tags of the query. *)
Lemma before_status_tags (p : IParsedQuery.t) (filters : gmap string string) :
  before_status p = Ok filters →
  match IParsedQuery.tags p with
  | Some ((_ :: _) as entries) =>
      ∃ strs, tag_strings entries = Ok strs ∧ filters !! "tags" = Some (Text.join " " strs)
  | _ => filters !! "tags" = None
  end.
Proof.
  unfold before_status.
  assert (N : copy_field "maxDuration" (IParsedQuery.maxDuration p)
       (copy_field "minDuration" (IParsedQuery.minDuration p)
          (copy_field "operation" (IParsedQuery.operation p)
             (copy_field "service" (IParsedQuery.service p) ∅))) !! "tags" = None).
  { rewrite !copy_field_lookup_ne by discriminate. apply lookup_empty. }
  destruct (IParsedQuery.tags p) as [[| e es] |]; try (intros [= <-]; exact N).
  destruct (tag_strings (e :: es)) as [strs |] eqn:E; simpl; [| discriminate].
  intros [= <-]. exists strs. split; [reflexivity | apply lookup_insert_eq].
Qed.

Lemma with_marker_appended (filters : gmap string string) (marker : string) :
  well_formed filters →
  with_marker filters marker = <["tags" := appended (filters !! "tags") marker]> filters.
Proof.
  intros W. unfold with_marker, appended.
  destruct (filters !! "tags") as [t |] eqn:E; simpl; [| reflexivity].
  destruct (W _ _ E) as [_ Ht]. destruct t; [contradiction | reflexivity].
Qed.

(** C4.  Let [filters] be what the compiler gives for a query when its status
    is ['all']: the copied fields and the rendered tags, nothing appended.
    With the status ['error'] the compiler gives the same filters with
    [otel.status_code="ERROR"] as tags when there are no rendered tags, and
    otherwise the rendered tags, one space and the marker; with ['success'] the
    same holds for [otel.status_code="OK"].  Tags [{"a":"b"}] with status
    ['error'] give [a="b" otel.status_code="ERROR"], and no tags with status
    ['success'] give exactly [otel.status_code="OK"]. *)
Theorem status_marker_is_appended (p : IParsedQuery.t) (filters : gmap string string) :
  convertParsedQueryToSearchFilters (with_status "all" p) = Ok filters →
  (IParsedQuery.status p = Some (JString "all") →
   convertParsedQueryToSearchFilters p = Ok filters)
  ∧ (IParsedQuery.status p = Some (JString "error") →
     convertParsedQueryToSearchFilters p
     = Ok (<["tags" := appended (filters !! "tags") ERROR_MARKER]> filters))
  ∧ (IParsedQuery.status p = Some (JString "success") →
     convertParsedQueryToSearchFilters p
     = Ok (<["tags" := appended (filters !! "tags") OK_MARKER]> filters))
  ∧ convertParsedQueryToSearchFilters (bare_query (Some [("a", JString "b")]) "error")
    = Ok {[ "tags" := Text.quoted "a='b' otel.status_code='ERROR'" ]}
  ∧ convertParsedQueryToSearchFilters (bare_query None "success")
    = Ok {[ "tags" := Text.quoted "otel.status_code='OK'" ]}.
Proof.
  rewrite convert_eq, before_status_with_status. simpl.
  destruct (before_status p) as [f |] eqn:B; simpl; [| discriminate].
  intros [= <-].
  pose proof (well_formed_before_status _ _ B) as W.
  split; [| split; [| split; [| split]]].
  - intros S. rewrite convert_eq, B. unfold is_status. rewrite S. reflexivity.
  - intros S. rewrite convert_eq, B. unfold is_status. rewrite S. simpl.
    rewrite with_marker_appended by exact W. reflexivity.
  - intros S. rewrite convert_eq, B. unfold is_status. rewrite S. simpl.
    rewrite with_marker_appended by exact W. reflexivity.
  - vm_compute. reflexivity.
  - vm_compute. reflexivity.
Qed.

Lemma status_marker_is_appended_witness :
  convertParsedQueryToSearchFilters
    (with_status "all" (bare_query (Some [("a", JString "b")]) "error"))
  = Ok {[ "tags" := Text.quoted "a='b'" ]}
  ∧ convertParsedQueryToSearchFilters (bare_query (Some [("a", JString "b")]) "error")
    = Ok (<["tags" := appended (Some (Text.quoted "a='b'")) ERROR_MARKER]>
            {[ "tags" := Text.quoted "a='b'" ]}).
Proof.
  assert (H : convertParsedQueryToSearchFilters
                (with_status "all" (bare_query (Some [("a", JString "b")]) "error"))
              = Ok {[ "tags" := Text.quoted "a='b'" ]})
    by (vm_compute; reflexivity).
  split; [exact H |].
  exact (proj1 (proj2 (status_marker_is_appended _ _ H)) eq_refl).
Defined.

Lemma copy_field_lookup_eq (key : string) (x : option string)
    (filters : gmap string string) :
  filters !! key = None → copy_field key x filters !! key = non_empty x.
Proof.
  intros H. unfold copy_field. destruct (non_empty x); [apply lookup_insert_eq | exact H].
Qed.

Lemma before_status_fields (p : IParsedQuery.t) (filters : gmap string string) :
  before_status p = Ok filters →
  filters !! "service" = non_empty (IParsedQuery.service p)
  ∧ filters !! "operation" = non_empty (IParsedQuery.operation p)
  ∧ filters !! "minDuration" = non_empty (IParsedQuery.minDuration p)
  ∧ filters !! "maxDuration" = non_empty (IParsedQuery.maxDuration p).
Proof.
  unfold before_status.
  set (fields := copy_field "maxDuration" _ _).
  assert (F : fields !! "service" = non_empty (IParsedQuery.service p)
            ∧ fields !! "operation" = non_empty (IParsedQuery.operation p)
            ∧ fields !! "minDuration" = non_empty (IParsedQuery.minDuration p)
            ∧ fields !! "maxDuration" = non_empty (IParsedQuery.maxDuration p)).
  { subst fields. repeat split.
    - rewrite !copy_field_lookup_ne by discriminate.
      apply copy_field_lookup_eq, lookup_empty.
    - rewrite !copy_field_lookup_ne by discriminate.
      apply copy_field_lookup_eq.
      rewrite !copy_field_lookup_ne by discriminate. apply lookup_empty.
    - rewrite !copy_field_lookup_ne by discriminate.
      apply copy_field_lookup_eq.
      rewrite !copy_field_lookup_ne by discriminate. apply lookup_empty.
    - apply copy_field_lookup_eq.
      rewrite !copy_field_lookup_ne by discriminate. apply lookup_empty. }
  destruct (IParsedQuery.tags p) as [[| e es] |]; try (intros [= <-]; exact F).
  destruct (tag_strings (e :: es)) as [strs |]; simpl; [| discriminate].
  intros [= <-]. rewrite !lookup_insert_ne by discriminate. exact F.
Qed.

Lemma with_marker_lookup_ne (filters : gmap string string) (marker key : string) :
  key ≠ "tags" → with_marker filters marker !! key = filters !! key.
Proof. intros H. unfold with_marker. apply lookup_insert_ne. congruence. Qed.

(** C10.  Whatever the query, normalized or not, the filters returned have
    their keys among [service], [operation], [minDuration], [maxDuration] and
    [tags], and no value is the empty text: a text field that is present but
    empty is left out, and so are tags without entries. *)
Theorem filters_are_named_and_non_empty (p : IParsedQuery.t)
    (filters : gmap string string) :
  convertParsedQueryToSearchFilters p = Ok filters →
  well_formed filters
  ∧ (IParsedQuery.service p = Some "" → filters !! "service" = None)
  ∧ (IParsedQuery.operation p = Some "" → filters !! "operation" = None)
  ∧ (IParsedQuery.minDuration p = Some "" → filters !! "minDuration" = None)
  ∧ (IParsedQuery.maxDuration p = Some "" → filters !! "maxDuration" = None)
  ∧ (IParsedQuery.tags p = Some [] →
     is_status p "error" = false → is_status p "success" = false →
     filters !! "tags" = None).
Proof.
  rewrite convert_eq.
  destruct (before_status p) as [f |] eqn:B; simpl; [| discriminate].
  intros [= <-].
  pose proof (well_formed_before_status _ _ B) as W.
  destruct (before_status_fields _ _ B) as (F1 & F2 & F3 & F4).
  pose proof (before_status_tags _ _ B) as T.
  assert (L : ∀ key, key ≠ "tags" →
    (if is_status p "error" then with_marker f ERROR_MARKER
     else if is_status p "success" then with_marker f OK_MARKER else f) !! key
    = f !! key).
  { intros key Hk. destruct (is_status p "error"), (is_status p "success");
      rewrite ?with_marker_lookup_ne by exact Hk; reflexivity. }
  split; [| split; [| split; [| split; [| split]]]].
  - destruct (is_status p "error"); [| destruct (is_status p "success")];
      try exact W; apply well_formed_with_marker; (discriminate || exact W).
  - intros E. rewrite L, F1, E by discriminate. reflexivity.
  - intros E. rewrite L, F2, E by discriminate. reflexivity.
  - intros E. rewrite L, F3, E by discriminate. reflexivity.
  - intros E. rewrite L, F4, E by discriminate. reflexivity.
  - intros E -> ->. rewrite E in T. exact T.
Qed.

Lemma filters_are_named_and_non_empty_witness :
  convertParsedQueryToSearchFilters
    {| IParsedQuery.service := Some "";
       IParsedQuery.operation := Some "GET /users";
       IParsedQuery.minDuration := None;
       IParsedQuery.maxDuration := Some "";
       IParsedQuery.tags := Some [];
       IParsedQuery.status := Some (JString "all");
       IParsedQuery.natural_language_question := "" |}
  = Ok {[ "operation" := "GET /users" ]}
  ∧ well_formed ({[ "operation" := "GET /users" ]} : gmap string string).
Proof.
  assert (H : convertParsedQueryToSearchFilters
    {| IParsedQuery.service := Some "";
       IParsedQuery.operation := Some "GET /users";
       IParsedQuery.minDuration := None;
       IParsedQuery.maxDuration := Some "";
       IParsedQuery.tags := Some [];
       IParsedQuery.status := Some (JString "all");
       IParsedQuery.natural_language_question := "" |}
    = Ok {[ "operation" := "GET /users" ]}) by (vm_compute; reflexivity).
  split; [exact H |].
  exact (proj1 (filters_are_named_and_non_empty _ _ H)).
Defined.

(** ** The callback and the history *)

Lemma StronglySorted_take {A} (R : A → A → Prop) (n : nat) (l : list A) :
  StronglySorted R l → StronglySorted R (take n l).
Proof.
  intros H. revert n. induction H as [| x l Hl IH Hx]; intros [| n]; simpl;
    try constructor.
  - apply IH.
  - apply Forall_take, Hx.
Qed.

Lemma length_prepended {A} (x : A) (l : list A) : (length (x :: take 9 l) ≤ 10)%nat.
Proof. simpl. rewrite length_take. lia. Qed.

(** The history after the callback, by the way the request ends. *)
Lemma handleSearch_cases (seen s : State) (env : Env) (net : Network) :
  let s' := (handleSearch seen env net s).1 in
  if turned_down seen then
    queryHistory s' = queryHistory s ∧ storedHistory s' = storedHistory s
  else
    match pipeline seen net with
    | Err _ => queryHistory s' = queryHistory s ∧ storedHistory s' = storedHistory s
    | Ok _ =>
        queryHistory s' = new_entry seen env :: take 9 (queryHistory seen)
        ∧ storedHistory s' = Some (queryHistory s')
    end.
Proof.
  unfold handleSearch, turned_down, pipeline.
  destruct (blank (question seen)); simpl; [split; reflexivity |].
  destruct (is_openai (selectedModel seen) && Text.is_empty (apiKey seen)); simpl;
    [split; reflexivity |].
  destruct (parseNaturalLanguageQuery (question seen) (llmConfig_of seen) net start)
    as [[[parsed reply] | error] tr]; simpl; [| split; reflexivity].
  destruct (convertParsedQueryToSearchFilters parsed); simpl; split; reflexivity.
Qed.

(** C9.  When the request is turned down, or the gateway, the extraction or
    the compilation fails, the history in the state and the history in the
    local storage are left as they were.  When the request succeeds, the
    entry of the question and of the current time is put in front of the first
    nine entries of the history that the callback saw, and the result is
    stored: it has at most ten entries, and it is ordered from the newest to
    the oldest when the history was and the clock has not gone back. *)
Theorem handleSearch_history (seen s : State) (env : Env) (net : Network) :
  let s' := (handleSearch seen env net s).1 in
  (turned_down seen = true ∨ is_Ok (pipeline seen net) = false →
   queryHistory s' = queryHistory s ∧ storedHistory s' = storedHistory s)
  ∧ (turned_down seen = false → is_Ok (pipeline seen net) = true →
     queryHistory s' = new_entry seen env :: take 9 (queryHistory seen)
     ∧ storedHistory s' = Some (queryHistory s')
     ∧ (length (queryHistory s') ≤ 10)%nat
     ∧ (newest_first (queryHistory seen) →
        Forall (fun e => (HistoryEntry.timestamp e <= Date_now env)%Z) (queryHistory seen) →
        newest_first (queryHistory s')))
  ∧ (seen = s → (length (queryHistory s) ≤ 10)%nat →
     (length (queryHistory s') ≤ 10)%nat).
Proof.
  intros s'. pose proof (handleSearch_cases seen s env net) as H.
  fold s' in H. cbv zeta in H.
  split; [| split].
  - intros [T | P].
    + rewrite T in H. exact H.
    + destruct (turned_down seen); [exact H |].
      destruct (pipeline seen net); [discriminate P | exact H].
  - intros T P. rewrite T in H.
    destruct (pipeline seen net); [| discriminate P].
    destruct H as [Hq Hs]. rewrite Hq.
    split; [reflexivity |]. split; [rewrite Hs, Hq; reflexivity |].
    split; [apply length_prepended |].
    intros Hsorted Hnow. constructor.
    + apply StronglySorted_take, Hsorted.
    + apply Forall_take, Hnow.
  - intros -> Hlen.
    destruct (turned_down s); [destruct H as [-> _]; exact Hlen |].
    destruct (pipeline s net); destruct H as [-> _];
      [apply length_prepended | exact Hlen].
Qed.

Lemma handleSearch_history_witness :
  let seen := initial "Show me slow requests to the user service" "ollama-free" [] in
  let net := answering 120 slow_requests_reply in
  let env := clock 1700000000000 in
  turned_down seen = false ∧ is_Ok (pipeline seen net) = true
  ∧ queryHistory (handleSearch seen env net seen).1
    = [{| HistoryEntry.question := "Show me slow requests to the user service";
          HistoryEntry.timestamp := 1700000000000 |}].
Proof.
  intros seen net env.
  assert (T : turned_down seen = false) by reflexivity.
  assert (P : is_Ok (pipeline seen net) = true) by (vm_compute; reflexivity).
  split; [exact T |]. split; [exact P |].
  exact (proj1 (proj1 (proj2 (handleSearch_history seen seen env net)) T P)).
Defined.

(** The first end-to-end example of the specification: the question about slow
    requests compiles to the service and the minimum duration, without tags. *)
Example slow_requests_end_to_end :
  pipeline (initial "Show me slow requests to the user service" "ollama-free" [])
    (answering 120 slow_requests_reply)
  = Ok {[ "service" := "user"; "minDuration" := "500ms" ]}.
Proof. vm_compute. reflexivity. Qed.

(** The second end-to-end example: the question about payment errors compiles
    to the service and to the tags with the error marker last. *)
Example payment_errors_end_to_end :
  pipeline (initial "Find errors in payment processing" "ollama-free" [])
    (answering 120 payment_errors_reply)
  = Ok {[ "service" := "payment";
          "tags" := Text.quoted "http.status_code='5xx' otel.status_code='ERROR'" ]}.
Proof. vm_compute. reflexivity. Qed.

(** * Further properties

    What follows covers the code around the places of the properties above:
    the other paths of the two adapters, the requests of the gateway, the
    extraction of well-formed replies, the fields that the compiler copies and
    the other effects of the callback and of the handlers of the component. *)

(** ** The other paths of the adapters *)

(** X1.  [OpenAIClient.query], lines 193 and 194: the text returned is the content
    of the message of the first choice; the other choices are not looked at. *)
Theorem OpenAI_returns_first_choice (this : OpenAIClient.t) (prompt : string)
    (net : Network) (tr : Trace) (response : Response)
    (data first message : JSValue) (others : list JSValue) (content : string) :
  settled (net (OpenAIClient.request this prompt)) = Resolved response →
  ok response = true →
  json response = Ok data →
  JS.Get data "choices" = Ok (Some (JArray (first :: others))) →
  JS.GetOpt (Some first) "message" = Some message →
  JS.GetOpt (Some message) "content" = Some (JString content) →
  (OpenAIClient.query this prompt net tr).1 = Ok (JString content).
Proof.
  intros Hnet Hok Hjson Hchoices Hmessage Hcontent.
  unfold OpenAIClient.query, mbind, IO_bind, fetch, lift.
  rewrite Hnet, Hok; simpl. rewrite Hjson, Hchoices.
  change (JS.GetV (Some (JArray (first :: others))) "0") with (Ok (Some first)).
  cbv beta iota. rewrite Hmessage, Hcontent.
  destruct content; reflexivity.
Qed.

Lemma OpenAI_returns_first_choice_witness :
  let this := OpenAIClient.new "sk-test" "gpt-4" in
  let body := Text.quoted
    "{'choices':[{'message':{'content':'first'}},{'message':{'content':'second'}}]}" in
  let response := {| ok := true; statusText := "OK"; text := body |} in
  let first := JObject [("message", JObject [("content", JString "first")])] in
  let second := JObject [("message", JObject [("content", JString "second")])] in
  settled (answering 0 body (OpenAIClient.request this "prompt")) = Resolved response
  ∧ ok response = true
  ∧ json response = Ok (JObject [("choices", JArray [first; second])])
  ∧ (OpenAIClient.query this "prompt" (answering 0 body) start).1 = Ok (JString "first").
Proof.
  intros this body response first second.
  assert (H1 : settled (answering 0 body (OpenAIClient.request this "prompt"))
               = Resolved response) by reflexivity.
  assert (H2 : ok response = true) by reflexivity.
  assert (H3 : json response = Ok (JObject [("choices", JArray [first; second])]))
    by (vm_compute; reflexivity).
  split; [exact H1 |]. split; [exact H2 |]. split; [exact H3 |].
  exact (OpenAI_returns_first_choice this "prompt" (answering 0 body) start response
           _ first (JObject [("content", JString "first")]) [second] "first"
           H1 H2 H3 eq_refl eq_refl eq_refl).
Defined.



(** X3.  [OpenAIClient.query], line 189: on a failure status whose body is not
    JSON, the error of [response.json()] is what the adapter throws; the
    status text is not reported. *)
Theorem OpenAI_error_body_must_be_JSON (this : OpenAIClient.t) (prompt : string)
    (net : Network) (tr : Trace) (response : Response) (e : Thrown) :
  settled (net (OpenAIClient.request this prompt)) = Resolved response →
  ok response = false →
  json response = Err e →
  (OpenAIClient.query this prompt net tr).1 = Err e
  ∧ ∃ message, e = SyntaxError message.
Proof.
  intros Hnet Hok Hjson. split.
  - unfold OpenAIClient.query, mbind, IO_bind, fetch, lift.
    rewrite Hnet, Hok; simpl. rewrite Hjson. reflexivity.
  - apply JSON_parse_error with (s := text response). exact Hjson.
Qed.

Lemma OpenAI_error_body_must_be_JSON_witness :
  let this := OpenAIClient.new "sk-test" "gpt-4" in
  let net := refusing "Bad Gateway" "<html>Bad Gateway</html>" in
  let response :=
    {| ok := false; statusText := "Bad Gateway"; text := "<html>Bad Gateway</html>" |} in
  settled (net (OpenAIClient.request this "prompt")) = Resolved response
  ∧ ok response = false
  ∧ json response = Err (SyntaxError "Unexpected token in JSON")
  ∧ (OpenAIClient.query this "prompt" net start).1
    = Err (SyntaxError "Unexpected token in JSON").
Proof.
  intros this net response.
  assert (H1 : settled (net (OpenAIClient.request this "prompt")) = Resolved response)
    by reflexivity.
  assert (H2 : ok response = false) by reflexivity.
  assert (H3 : json response = Err (SyntaxError "Unexpected token in JSON"))
    by (vm_compute; reflexivity).
  split; [exact H1 |]. split; [exact H2 |]. split; [exact H3 |].
  exact (proj1 (OpenAI_error_body_must_be_JSON this "prompt" net start response
                  _ H1 H2 H3)).
Defined.



(** X5.  [OpenAIClient.query], line 194: [choices] is read without a guard.  On a
    success status whose body is JSON without a member [choices], the adapter
    throws the [TypeError] of reading the element 0 of [undefined]; and on a
    body that is the value [null], the one of reading [choices] of [null]. *)
Theorem OpenAI_missing_choices_throws (this : OpenAIClient.t) (prompt : string)
    (net : Network) (tr : Trace) (response : Response) (data : JSValue) :
  settled (net (OpenAIClient.request this prompt)) = Resolved response →
  ok response = true →
  json response = Ok data →
  (JS.Get data "choices" = Ok None →
   (OpenAIClient.query this prompt net tr).1
   = Err (TypeError "Cannot read properties of undefined (reading '0')"))
  ∧ (data = JNull →
     (OpenAIClient.query this prompt net tr).1
     = Err (TypeError "Cannot read properties of null (reading 'choices')")).
Proof.
  intros Hnet Hok Hjson.
  unfold OpenAIClient.query, mbind, IO_bind, fetch, lift.
  rewrite Hnet, Hok; simpl. rewrite Hjson.
  split.
  - intros ->. reflexivity.
  - intros ->. reflexivity.
Qed.

Lemma OpenAI_missing_choices_throws_witness :
  let this := OpenAIClient.new "sk-test" "gpt-4" in
  let body := Text.quoted "{'id':'chatcmpl-1','object':'chat.completion'}" in
  let response := {| ok := true; statusText := "OK"; text := body |} in
  let data := JObject [("id", JString "chatcmpl-1"); ("object", JString "chat.completion")] in
  settled (answering 0 body (OpenAIClient.request this "prompt")) = Resolved response
  ∧ ok response = true
  ∧ json response = Ok data
  ∧ (OpenAIClient.query this "prompt" (answering 0 body) start).1
    = Err (TypeError "Cannot read properties of undefined (reading '0')").
Proof.
  intros this body response data.
  assert (H1 : settled (answering 0 body (OpenAIClient.request this "prompt"))
               = Resolved response) by reflexivity.
  assert (H2 : ok response = true) by reflexivity.
  assert (H3 : json response = Ok data) by (vm_compute; reflexivity).
  split; [exact H1 |]. split; [exact H2 |]. split; [exact H3 |].
  exact (proj1 (OpenAI_missing_choices_throws this "prompt" (answering 0 body) start
                  response data H1 H2 H3) eq_refl).
Defined.

(** The error path of [OllamaClient.query] for the text [message] of the
    failure. *)
Lemma Ollama_failure (this : OllamaClient.t) (prompt : string) (net : Network)
    (tr : Trace) (response : Response) (message : string) :
  settled (net (OllamaClient.request this prompt)) = Resolved response →
  ok response = false →
  match errorData ← JSON.parse (text response); JS.Get errorData "error" with
  | Ok e => JS.or_else e (JString (statusText response))
  | Err _ => JString (statusText response)
  end = JString message →
  (OllamaClient.query this prompt net tr).1
  = Err (Error (if model_absent message
                then "Ollama model '" +:+ OllamaClient.model this +:+
                     "' not found. Install it with: ollama pull " +:+
                     OllamaClient.model this
                else "Ollama API error: " +:+ message)).
Proof.
  intros Hnet Hok Hmsg.
  unfold OllamaClient.query, try_catch, mbind at 1, IO_bind, fetch.
  rewrite Hnet, Hok; simpl negb; cbv iota.
  rewrite Hmsg.
  unfold JS.ToString, lift, mbind, IO_bind, throw. simpl fst.
  unfold Error. cbv iota beta.
  change (Text.includes ("" +:+ message) "model"
          && Text.includes ("" +:+ message) "not found")
    with (model_absent message).
  destruct (model_absent message); reflexivity.
Qed.

(** X6.  [OllamaClient.query], lines 227 to 251: on a failure status, the text of
    the failure is the [error] member of the body when the body is JSON and
    has one that is a text and not empty, and the status text when the body is
    not JSON or has no such member.  The adapter throws 'Ollama API error: '
    followed by that text, unless the text holds both 'model' and 'not found':
    it then throws the instruction to install the model. *)
Theorem Ollama_protocol_error (this : OllamaClient.t) (prompt : string)
    (net : Network) (tr : Trace) (response : Response) (message : string) :
  settled (net (OllamaClient.request this prompt)) = Resolved response →
  ok response = false →
  (∃ e, JSON.parse (text response) = Err e) ∧ message = statusText response
  ∨ (∃ errorData, JSON.parse (text response) = Ok errorData
       ∧ (JS.Get errorData "error" = Ok None ∧ message = statusText response
          ∨ JS.Get errorData "error" = Ok (Some (JString message)) ∧ message ≠ "")) →
  (OllamaClient.query this prompt net tr).1
  = Err (Error (if model_absent message
                then "Ollama model '" +:+ OllamaClient.model this +:+
                     "' not found. Install it with: ollama pull " +:+
                     OllamaClient.model this
                else "Ollama API error: " +:+ message)).
Proof.
  intros Hnet Hok H. apply (Ollama_failure _ _ _ _ response); [exact Hnet | exact Hok |].
  destruct H as [[[e He] ->] | [errorData [Hp [[Hg ->] | [Hg Hne]]]]].
  - rewrite He. reflexivity.
  - rewrite Hp. simpl. rewrite Hg. reflexivity.
  - rewrite Hp. simpl. rewrite Hg. destruct message; [contradiction | reflexivity].
Qed.

Lemma Ollama_protocol_error_witness :
  let this := OllamaClient.new None None in
  let net := refusing "Internal Server Error" "upstream crashed" in
  let response :=
    {| ok := false; statusText := "Internal Server Error"; text := "upstream crashed" |} in
  settled (net (OllamaClient.request this "prompt")) = Resolved response
  ∧ ok response = false
  ∧ JSON.parse (text response) = Err (SyntaxError "Unexpected token in JSON")
  ∧ (OllamaClient.query this "prompt" net start).1
    = Err (Error "Ollama API error: Internal Server Error").
Proof.
  intros this net response.
  assert (H1 : settled (net (OllamaClient.request this "prompt")) = Resolved response)
    by reflexivity.
  assert (H2 : ok response = false) by reflexivity.
  assert (H3 : JSON.parse (text response) = Err (SyntaxError "Unexpected token in JSON"))
    by (vm_compute; reflexivity).
  split; [exact H1 |]. split; [exact H2 |]. split; [exact H3 |].
  exact (Ollama_protocol_error this "prompt" net start response "Internal Server Error"
           H1 H2 (or_introl (conj (ex_intro _ _ H3) eq_refl))).
Defined.


(** X7.  [OllamaClient.query], lines 243 to 256: what the [catch] clause makes of a
    rejected [fetch].  An instance of [Error] is thrown again as it is, unless
    its message holds both 'model' and 'not found': the adapter then throws
    the instruction to install its model.  Any other value thrown gives the
    error that names the base URL of the adapter.  The hosted adapter has no
    such clause: it passes on whatever [fetch] was rejected with. *)
Theorem adapters_on_rejected_fetch (prompt : string) (net : Network) (tr : Trace) (e : Thrown) :
  (∀ this, settled (net (OllamaClient.request this prompt)) = Rejected e →
     (OllamaClient.query this prompt net tr).1
     = Err match e with
           | ThrownError _ message =>
               if model_absent message
               then Error ("Ollama model '" +:+ OllamaClient.model this +:+
                           "' not found. Install it with: ollama pull " +:+
                           OllamaClient.model this)
               else e
           | ThrownValue _ =>
               Error ("Unable to connect to Ollama at " +:+ OllamaClient.baseURL this +:+
                      ". Make sure Ollama is running on the correct port.")
           end)
  ∧ (∀ this, settled (net (OpenAIClient.request this prompt)) = Rejected e →
       (OpenAIClient.query this prompt net tr).1 = Err e).
Proof.
  split.
  - intros this Hnet.
    unfold OllamaClient.query, try_catch, mbind, IO_bind, fetch.
    rewrite Hnet; simpl. destruct e as [name message | v]; [| reflexivity].
    fold (model_absent message). destruct (model_absent message); reflexivity.
  - intros this Hnet.
    unfold OpenAIClient.query, mbind, IO_bind, fetch.
    rewrite Hnet. reflexivity.
Qed.

Lemma adapters_on_rejected_fetch_witness :
  let this := OllamaClient.new (Some "http://ollama.internal:11434") None in
  let net : Network := fun _ => {| latency := 0; settled := Rejected (ThrownValue JNull) |} in
  settled (net (OllamaClient.request this "prompt")) = Rejected (ThrownValue JNull)
  ∧ (OllamaClient.query this "prompt" net start).1
    = Err (Error ("Unable to connect to Ollama at http://ollama.internal:11434" +:+
                  ". Make sure Ollama is running on the correct port.")).
Proof.
  intros this net.
  assert (H : settled (net (OllamaClient.request this "prompt"))
              = Rejected (ThrownValue JNull)) by reflexivity.
  split; [exact H |].
  exact (proj1 (adapters_on_rejected_fetch "prompt" net start (ThrownValue JNull)) this H).
Defined.

(** ** The requests of the gateway *)

Section Sends.
Context {A B : Type}.

Lemma sends_ret (a : A) : sends [] (mret a).
Proof. intros net tr. simpl. rewrite app_nil_r. reflexivity. Qed.

Lemma sends_throw (e : Thrown) : sends [] (@throw A e).
Proof. intros net tr. simpl. rewrite app_nil_r. reflexivity. Qed.

Lemma sends_lift (r : Result A) : sends [] (lift r).
Proof. intros net tr. simpl. rewrite app_nil_r. reflexivity. Qed.

(** A computation followed by one that sends nothing sends what the first
    sends, whether the second runs or not. *)
Lemma sends_bind (requests : list Request) (c : IO A) (k : A → IO B) :
  sends requests c → (∀ a, sends [] (k a)) → sends requests (c ≫= k).
Proof.
  intros Hc Hk net tr. specialize (Hc net tr).
  unfold mbind, IO_bind.
  destruct (c net tr) as [[a | e] tr1]; simpl in *; [| exact Hc].
  rewrite (Hk a net tr1), app_nil_r. exact Hc.
Qed.

Lemma sends_try_catch (requests : list Request) (c : IO A) (h : Thrown → IO A) :
  sends requests c → (∀ e, sends [] (h e)) → sends requests (try_catch c h).
Proof.
  intros Hc Hh net tr. specialize (Hc net tr).
  unfold try_catch.
  destruct (c net tr) as [[a | e] tr1]; simpl in *; [exact Hc |].
  rewrite (Hh e net tr1), app_nil_r. exact Hc.
Qed.

End Sends.

Lemma sends_fetch (req : Request) : sends [req] (fetch req).
Proof. intros net tr. unfold fetch. destruct (settled (net req)); reflexivity. Qed.

Ltac sends_cases :=
  repeat match goal with
         | |- sends _ (if ?b then _ else _) => destruct b
         | |- sends _ (match ?x with _ => _ end) => destruct x
         end.

Lemma OpenAI_sends this prompt :
  sends [OpenAIClient.request this prompt] (OpenAIClient.query this prompt).
Proof.
  unfold OpenAIClient.query.
  apply sends_bind; [apply sends_fetch |]. intros response.
  repeat first
    [ apply sends_bind; [| intros ?]
    | apply sends_lift | apply sends_throw | apply sends_ret
    | progress sends_cases ].
Qed.

Lemma Ollama_sends this prompt :
  sends [OllamaClient.request this prompt] (OllamaClient.query this prompt).
Proof.
  unfold OllamaClient.query.
  apply sends_try_catch.
  - apply sends_bind; [apply sends_fetch |]. intros response.
    repeat first
      [ apply sends_bind; [| intros ?]
      | apply sends_lift | apply sends_throw | apply sends_ret
      | progress sends_cases ].
  - intros e. sends_cases; apply sends_throw.
Qed.

Lemma queryLLM_sends_hosted (config : ILLMClientConfig.t) (prompt key : string) :
  is_hosted (ILLMClientConfig.model config) →
  ILLMClientConfig.apiKey config = Some key → key ≠ "" →
  sends [OpenAIClient.request
           (OpenAIClient.new key (openai_name (ILLMClientConfig.model config))) prompt]
        (queryLLM config prompt).
Proof.
  intros Hh Hkey Hne.
  unfold queryLLM. apply sends_bind; [| intros; apply sends_ret].
  replace (String.eqb (ILLMClientConfig.model config) "openai-gpt4"
           || String.eqb (ILLMClientConfig.model config) "openai-gpt3.5") with true
    by (destruct Hh as [-> | ->]; reflexivity).
  rewrite Hkey. destruct key; [contradiction |]. apply OpenAI_sends.
Qed.

Lemma queryLLM_sends_local (config : ILLMClientConfig.t) (prompt : string) :
  ILLMClientConfig.model config = "ollama-free" →
  sends [OllamaClient.request
           (OllamaClient.new (ILLMClientConfig.baseURL config) None) prompt]
        (queryLLM config prompt).
Proof.
  intros Hm. unfold queryLLM. apply sends_bind; [| intros; apply sends_ret].
  rewrite Hm. apply Ollama_sends.
Qed.

Lemma queryLLM_sends_nothing (config : ILLMClientConfig.t) (prompt : string) :
  ¬ known_model (ILLMClientConfig.model config) → sends [] (queryLLM config prompt).
Proof.
  intros Hk. unfold queryLLM. apply sends_bind; [| intros; apply sends_ret].
  unfold known_model, is_hosted in Hk.
  destruct (String.eqb_spec (ILLMClientConfig.model config) "openai-gpt4"); [tauto |].
  destruct (String.eqb_spec (ILLMClientConfig.model config) "openai-gpt3.5"); [tauto |].
  destruct (String.eqb_spec (ILLMClientConfig.model config) "ollama-free"); [tauto |].
  apply sends_throw.
Qed.

(** X8.  [queryLLM], lines 260 to 281: whatever the backend answers, the gateway
    sends exactly one request for a hosted model with a key, to the endpoint
    of the hosted backend with the key as bearer credential, and exactly one
    request for the local model, to the configured base URL (the loopback URL
    when none is configured) with no credential. *)
Theorem queryLLM_sends_one_request (config : ILLMClientConfig.t) (prompt : string)
    (net : Network) (tr : Trace) :
  (∀ key, is_hosted (ILLMClientConfig.model config) →
     ILLMClientConfig.apiKey config = Some key → key ≠ "" →
     ∃ request,
       calls (queryLLM config prompt net tr).2 = (calls tr ++ [request])%list
       ∧ request = OpenAIClient.request
                     (OpenAIClient.new key (openai_name (ILLMClientConfig.model config)))
                     prompt
       ∧ url request = "https://api.openai.com/v1/chat/completions"
       ∧ headers request = [("Content-Type", "application/json");
                            ("Authorization", "Bearer " +:+ key)])
  ∧ (ILLMClientConfig.model config = "ollama-free" →
     ∃ request,
       calls (queryLLM config prompt net tr).2 = (calls tr ++ [request])%list
       ∧ request = OllamaClient.request
                     (OllamaClient.new (ILLMClientConfig.baseURL config) None) prompt
       ∧ url request = local_base (ILLMClientConfig.baseURL config) +:+ "/api/generate"
       ∧ headers request = [("Content-Type", "application/json")]).
Proof.
  split.
  - intros key Hh Hkey Hne. eexists. split; [| split; [reflexivity | split; reflexivity]].
    apply (queryLLM_sends_hosted config prompt key Hh Hkey Hne).
  - intros Hm. eexists. split; [| split; [reflexivity | split]].
    + apply (queryLLM_sends_local config prompt Hm).
    + unfold local_base. destruct (ILLMClientConfig.baseURL config) as [[| c u] |];
        reflexivity.
    + reflexivity.
Qed.

Lemma queryLLM_sends_one_request_witness :
  ILLMClientConfig.model local_config = "ollama-free"
  ∧ ∃ request,
      calls (queryLLM local_config "prompt" unreachable start).2 = [request]
      ∧ url request = "http://localhost:11434/api/generate".
Proof.
  assert (H : ILLMClientConfig.model local_config = "ollama-free") by reflexivity.
  split; [exact H |].
  destruct (proj2 (queryLLM_sends_one_request local_config "prompt" unreachable start) H)
    as (request & Hc & _ & Hu & _).
  exists request. split; [exact Hc | exact Hu].
Defined.

(** X9.  [queryLLM], lines 263 to 272: the local backend is never given the key,
    and the hosted backend is never reached through the configured base URL:
    with the local model the result and the requests do not depend on
    [apiKey], with a hosted model they do not depend on [baseURL]. *)
Theorem queryLLM_unused_settings (config : ILLMClientConfig.t) (prompt : string)
    (net : Network) (tr : Trace) :
  (ILLMClientConfig.model config = "ollama-free" →
   ∀ key, queryLLM (with_apiKey key config) prompt net tr = queryLLM config prompt net tr)
  ∧ (is_hosted (ILLMClientConfig.model config) →
     ∀ baseURL,
       queryLLM (with_baseURL baseURL config) prompt net tr
       = queryLLM config prompt net tr).
Proof.
  split.
  - intros Hm key. unfold queryLLM, with_apiKey; simpl. rewrite Hm. reflexivity.
  - intros Hh baseURL. unfold queryLLM, with_baseURL; simpl.
    destruct Hh as [-> | ->]; reflexivity.
Qed.

Lemma queryLLM_unused_settings_witness :
  ILLMClientConfig.model local_config = "ollama-free"
  ∧ queryLLM (with_apiKey (Some "sk-secret") local_config) "prompt" unreachable start
    = queryLLM local_config "prompt" unreachable start.
Proof.
  assert (H : ILLMClientConfig.model local_config = "ollama-free") by reflexivity.
  split; [exact H |].
  exact (proj1 (queryLLM_unused_settings local_config "prompt" unreachable start) H
           (Some "sk-secret")).
Defined.

(** ** The extraction of well-formed replies *)

Lemma upto_last_brace_none (s : string) :
  ¬ occurs "}" s → Text.upto_last_brace s = None.
Proof.
  induction s as [| a s IH]; simpl; [reflexivity |].
  intros H. rewrite IH by tauto.
  destruct (Ascii.eqb_spec a "}") as [-> | _]; [tauto | reflexivity].
Qed.

Lemma upto_last_brace_exact (mid post : string) :
  ¬ occurs "}" post → Text.upto_last_brace (mid +:+ "}" +:+ post) = Some (mid +:+ "}").
Proof.
  intros H. induction mid as [| a mid IH].
  - rewrite app_nil, app_cons, app_nil. simpl.
    rewrite upto_last_brace_none by exact H. reflexivity.
  - rewrite !(app_cons a). simpl. rewrite IH. reflexivity.
Qed.

Lemma match_braces_exact (pre mid post : string) :
  ¬ occurs "{" pre → ¬ occurs "}" post →
  Text.match_braces (pre +:+ "{" +:+ mid +:+ "}" +:+ post) = Some ("{" +:+ mid +:+ "}").
Proof.
  intros Hpre Hpost. induction pre as [| a pre IH].
  - rewrite app_nil, !(app_cons "{"), !app_nil. simpl.
    rewrite upto_last_brace_exact by exact Hpost. reflexivity.
  - rewrite (app_cons a). simpl. simpl in Hpre.
    destruct (Ascii.eqb_spec a "{") as [-> | _]; [tauto |].
    apply IH. tauto.
Qed.

Lemma no_fence_no_match (s : string) : ¬ has_fence s → Text.match_fenced s = None.
Proof.
  intros H. destruct (Text.match_fenced s) as [interior |] eqn:E; [| reflexivity].
  exfalso. apply H. apply match_fenced_sound in E as (pre & n1 & n2 & post & -> & _).
  exists pre, (n1 +:+ interior +:+ n2), post.
  rewrite !append_assoc. reflexivity.
Qed.

(** X10.  [parseNaturalLanguageQuery], lines 58 to 68: from a completion without a
    fenced block, made of a JSON object between two pieces of prose that hold
    no brace on the side of the object, the text given to [JSON.parse] is the
    object, whole and alone. *)
Theorem bare_object_is_extracted (pre mid post : string) :
  ¬ has_fence (pre +:+ "{" +:+ mid +:+ "}" +:+ post) →
  ¬ occurs "{" pre → ¬ occurs "}" post →
  select_json (pre +:+ "{" +:+ mid +:+ "}" +:+ post) = "{" +:+ mid +:+ "}".
Proof.
  intros Hf Hpre Hpost. unfold select_json.
  rewrite no_fence_no_match by exact Hf.
  rewrite match_braces_exact by assumption. reflexivity.
Qed.

Lemma bare_object_is_extracted_witness :
  let pre := "Here are the filters: " in
  let mid := Text.quoted "'service':'user','tags':{'a':'b'}" in
  let post := " Let me know if you need more." in
  ¬ has_fence (pre +:+ "{" +:+ mid +:+ "}" +:+ post)
  ∧ ¬ occurs "{" pre ∧ ¬ occurs "}" post
  ∧ select_json (pre +:+ "{" +:+ mid +:+ "}" +:+ post) = "{" +:+ mid +:+ "}".
Proof.
  intros pre mid post.
  assert (H1 : ¬ has_fence (pre +:+ "{" +:+ mid +:+ "}" +:+ post))
    by (apply match_fenced_complete; vm_compute; reflexivity).
  assert (H2 : ¬ occurs "{" pre)
    by (simpl; intros H; repeat (destruct H as [H | H]; [discriminate H |]); exact H).
  assert (H3 : ¬ occurs "}" post)
    by (simpl; intros H; repeat (destruct H as [H | H]; [discriminate H |]); exact H).
  split; [exact H1 |]. split; [exact H2 |]. split; [exact H3 |].
  exact (bare_object_is_extracted pre mid post H1 H2 H3).
Defined.

Lemma includes_eq (s sub : string) :
  Text.includes s sub =
  Text.starts_with sub s
  || match s with "" => false | String _ r => Text.includes r sub end.
Proof. destruct s; reflexivity. Qed.

Lemma starts_with_fence_app (s rest : string) :
  Text.starts_with "```" (s +:+ Text.nl +:+ rest) = Text.starts_with "```" s.
Proof.
  unfold Text.starts_with, Text.nl.
  destruct s as [| a [| b [| c s]]]; rewrite ?app_cons, ?app_nil;
    cbn [Text.strip_prefix];
    change (Ascii.eqb "`" (ascii_of_nat 10)) with false;
    repeat match goal with
           | |- context [Ascii.eqb ?x ?y] => destruct (Ascii.eqb x y)
           end; reflexivity.
Qed.

Lemma closes_fence_inside (a : ascii) (s rest : string) :
  Text.includes (String a s) "```" = false →
  Text.closes_fence (String a s +:+ Text.nl +:+ rest) = false.
Proof.
  intros H. rewrite includes_eq in H. apply orb_false_iff in H as [H1 H2].
  rewrite includes_eq in H2. apply orb_false_iff in H2 as [H2 _].
  unfold Text.closes_fence. apply orb_false_iff. split.
  - rewrite app_cons.
    pose proof (starts_with_fence_app s rest) as A. rewrite H2 in A.
    unfold Text.starts_with in *.
    change (Text.strip_prefix (Text.nl +:+ "```") (String a (s +:+ Text.nl +:+ rest)))
      with (if Ascii.eqb (ascii_of_nat 10) a
            then Text.strip_prefix "```" (s +:+ Text.nl +:+ rest) else None).
    destruct (Ascii.eqb _ a); [exact A | reflexivity].
  - rewrite starts_with_fence_app. exact H1.
Qed.

Lemma lazy_capture_exact (s post : string) :
  Text.includes s "```" = false →
  Text.lazy_capture (s +:+ Text.nl +:+ "```" +:+ post) = Some s.
Proof.
  induction s as [| a s IH]; intros H.
  - reflexivity.
  - pose proof (closes_fence_inside a s ("```" +:+ post) H) as C.
    rewrite (app_cons a s) in C |- *.
    change (Text.lazy_capture (String a (s +:+ Text.nl +:+ "```" +:+ post)))
      with (if Text.closes_fence (String a (s +:+ Text.nl +:+ "```" +:+ post))
            then Some ""
            else option_map (String a)
                   (Text.lazy_capture (s +:+ Text.nl +:+ "```" +:+ post))).
    rewrite C, IH; [reflexivity |].
    rewrite includes_eq in H. apply orb_false_iff in H as [_ H]. exact H.
Qed.

Lemma match_fence_at_exact (s post : string) :
  Text.includes s "```" = false →
  Text.match_fence_at ("```json" +:+ Text.nl +:+ s +:+ Text.nl +:+ "```" +:+ post)
  = Some s.
Proof.
  intros H. unfold Text.match_fence_at.
  rewrite (strip_prefix_complete "```json").
  rewrite (strip_prefix_complete Text.nl).
  rewrite lazy_capture_exact by exact H. reflexivity.
Qed.

Lemma match_fenced_skips (pre rest : string) :
  ¬ occurs "`" pre → Text.match_fenced (pre +:+ rest) = Text.match_fenced rest.
Proof.
  intros H. induction pre as [| a pre IH]; rewrite ?app_cons, ?app_nil; [reflexivity |].
  rewrite match_fenced_eq.
  simpl in H.
  assert (N : Text.match_fence_at (String a (pre +:+ rest)) = None).
  { unfold Text.match_fence_at.
    cbn [Text.strip_prefix].
    destruct (Ascii.eqb_spec "`" a) as [<- | _]; [tauto | reflexivity]. }
  rewrite N. apply IH. tauto.
Qed.

(** X11.  [parseNaturalLanguageQuery], lines 58 to 61: from a completion whose prose
    holds no backquote before a block [```json], a newline, a text without
    three backquotes in a row, a newline and the closing fence, the text given
    to [JSON.parse] is the text of the block, whatever follows the block. *)
Theorem fenced_block_is_extracted (pre block post : string) :
  ¬ occurs "`" pre →
  Text.includes block "```" = false →
  select_json (pre +:+ "```json" +:+ Text.nl +:+ block +:+ Text.nl +:+ "```" +:+ post)
  = block.
Proof.
  intros Hpre Hblock. unfold select_json.
  rewrite match_fenced_skips by exact Hpre.
  rewrite match_fenced_eq, match_fence_at_exact by exact Hblock. reflexivity.
Qed.

Lemma fenced_block_is_extracted_witness :
  let pre := "Sure! " in
  let block := Text.quoted "{'service':'user'}" in
  let post := " Anything else? {braces} are fine here." in
  ¬ occurs "`" pre ∧ Text.includes block "```" = false
  ∧ select_json (pre +:+ "```json" +:+ Text.nl +:+ block +:+ Text.nl +:+ "```" +:+ post)
    = block.
Proof.
  intros pre block post.
  assert (H1 : ¬ occurs "`" pre)
    by (simpl; intros H; repeat (destruct H as [H | H]; [discriminate H |]); exact H).
  assert (H2 : Text.includes block "```" = false) by reflexivity.
  split; [exact H1 |]. split; [exact H2 |].
  exact (fenced_block_is_extracted pre block post H1 H2).
Defined.

(** ** The failures and the results of the extractor *)

Lemma parse_body_error (question : string) (reply : ILLMResponse.t) (e : Thrown) :
  parse_body question reply = Err e → ∃ name message, e = ThrownError name message.
Proof.
  destruct reply as [content model].
  destruct content as [| b | x | content | items | props];
    try (intros [= <-]; unfold TypeError; eauto).
  change {| ILLMResponse.content := JString content; ILLMResponse.model := model |}
    with (llm_reply model content).
  rewrite parse_body_text.
  destruct (JSON.parse (select_json content)) as [parsed | e'] eqn:E.
  - destruct parsed; try discriminate. intros [= <-]. unfold TypeError. eauto.
  - intros [= <-]. apply JSON_parse_error in E as [message ->].
    unfold SyntaxError. eauto.
Qed.

Lemma parse_response_error (question : string) (reply : ILLMResponse.t) (e : Thrown) :
  parse_response question reply = Err e → ∃ message, e = parse_failure message.
Proof.
  unfold parse_response.
  destruct (parse_body question reply) as [r | error] eqn:B; [discriminate |].
  apply parse_body_error in B as (name & message & ->). simpl.
  intros [= <-]. exists message. reflexivity.
Qed.

(** X12.  [parseNaturalLanguageQuery], lines 54 to 98: the call of the gateway is
    outside the [try] block.  A failure of the parser is either the error of
    the gateway, passed on as it is, or, after a reply of the gateway, an
    [Error] whose message is 'Failed to parse LLM response as JSON: ' followed
    by a text; in both cases the requests are those of the gateway. *)
Theorem parser_failure_origin (question : string) (config : ILLMClientConfig.t)
    (net : Network) (tr tr' : Trace) (e : Thrown) :
  parseNaturalLanguageQuery question config net tr = (Err e, tr') →
  queryLLM config (prompt_of question) net tr = (Err e, tr')
  ∨ ∃ reply message,
      queryLLM config (prompt_of question) net tr = (Ok reply, tr')
      ∧ e = parse_failure message.
Proof.
  unfold parseNaturalLanguageQuery, mbind, IO_bind, lift.
  fold (prompt_of question).
  destruct (queryLLM config (prompt_of question) net tr) as [[reply | error] tr1].
  - intros [= H <-]. right. apply parse_response_error in H as [message ->]. eauto.
  - intros [= <- <-]. left. reflexivity.
Qed.

Lemma parser_failure_origin_witness :
  parseNaturalLanguageQuery "Find errors" local_config unreachable start
  = (Err (TypeError "Failed to fetch"),
     (queryLLM local_config (prompt_of "Find errors") unreachable start).2)
  ∧ (queryLLM local_config (prompt_of "Find errors") unreachable start).1
    = Err (TypeError "Failed to fetch").
Proof.
  assert (H : parseNaturalLanguageQuery "Find errors" local_config unreachable start
              = (Err (TypeError "Failed to fetch"),
                 (queryLLM local_config (prompt_of "Find errors") unreachable start).2))
    by (vm_compute; reflexivity).
  split; [exact H |].
  destruct (parser_failure_origin _ _ _ _ _ _ H) as [Q | (reply & message & Q & E)].
  - rewrite Q. reflexivity.
  - discriminate E.
Defined.

Lemma or_else_truthy (a : option JSValue) (b : JSValue) :
  JS.truthy (Some b) = true → JS.truthy (Some (JS.or_else a b)) = true.
Proof.
  intros Hb. unfold JS.or_else. destruct a as [v |]; [| exact Hb].
  destruct (JS.truthy (Some v)) eqn:E; [exact E | exact Hb].
Qed.

(** X13.  [parseNaturalLanguageQuery], lines 81 to 93: a query that the parser
    returns always has a status, and the status is never a falsy value: a
    payload without status, or with the status [null], [false], [0] or the
    empty text, gives ['all'].  The reply returned beside the query is the
    reply of the gateway. *)
Theorem parsed_status_is_set (question : string) (reply reply' : ILLMResponse.t)
    (p : IParsedQuery.t) :
  parse_response question reply = Ok (p, reply') →
  reply' = reply
  ∧ ∃ status, IParsedQuery.status p = Some status ∧ JS.truthy (Some status) = true
      ∧ ∀ payload, ILLMResponse.content reply = JString payload →
          ∀ parsed, JSON.parse (select_json payload) = Ok parsed →
            JS.truthy (JS.GetOpt (Some parsed) "status") = false →
            status = JString "all".
Proof.
  destruct reply as [content model].
  unfold parse_response.
  destruct content as [| b | x | content | items | props];
    try (simpl; discriminate).
  change {| ILLMResponse.content := JString content; ILLMResponse.model := model |}
    with (llm_reply model content).
  rewrite parse_body_text.
  destruct (JSON.parse (select_json content)) as [parsed | e] eqn:E;
    [| simpl; destruct (message_of e); discriminate].
  intros H.
  assert (S : (p, reply') = (normalized question parsed, llm_reply model content))
    by (destruct parsed; try discriminate H; injection H as <- <-; reflexivity).
  injection S as -> ->. split; [reflexivity |].
  exists (JS.or_else (JS.GetOpt (Some parsed) "status") (JString "all")).
  split; [reflexivity |]. split; [apply or_else_truthy; reflexivity |].
  intros payload [= <-] parsed' E'. rewrite E in E'. injection E' as <-.
  intros F. unfold JS.or_else.
  destruct (JS.GetOpt (Some parsed) "status"); [rewrite F |]; reflexivity.
Qed.

Lemma parsed_status_is_set_witness :
  let reply := llm_reply "ollama-free" (Text.quoted "{'service':'user','status':''}") in
  let parsed := JObject [("service", JString "user"); ("status", JString "")] in
  let p := normalized "Find the user service" parsed in
  parse_response "Find the user service" reply = Ok (p, reply)
  ∧ IParsedQuery.status p = Some (JString "all").
Proof.
  intros reply parsed p.
  assert (H : parse_response "Find the user service" reply = Ok (p, reply))
    by (vm_compute; reflexivity).
  split; [exact H |].
  destruct (parsed_status_is_set _ _ _ _ H) as (_ & status & Hs & _ & Hd).
  rewrite Hs. f_equal.
  apply (Hd _ eq_refl parsed); vm_compute; reflexivity.
Defined.

(** ** What the compiler copies and renders *)

Lemma convert_lookup_ne (p : IParsedQuery.t) (before filters : gmap string string)
    (key : string) :
  before_status p = Ok before →
  convertParsedQueryToSearchFilters p = Ok filters →
  key ≠ "tags" → filters !! key = before !! key.
Proof.
  intros B. rewrite convert_eq, B. simpl. intros [= <-] Hk.
  destruct (is_status p "error"), (is_status p "success");
    rewrite ?with_marker_lookup_ne by exact Hk; reflexivity.
Qed.

(** X14.  [convertParsedQueryToSearchFilters], lines 105 to 119: each of the four
    text fields of the query goes to the filter of the same name as it is,
    unless it is absent or empty, and then the filter is absent; neither the
    tags nor the status change these four filters. *)
Theorem fields_are_copied (p : IParsedQuery.t) (filters : gmap string string) :
  convertParsedQueryToSearchFilters p = Ok filters →
  filters !! "service" = non_empty (IParsedQuery.service p)
  ∧ filters !! "operation" = non_empty (IParsedQuery.operation p)
  ∧ filters !! "minDuration" = non_empty (IParsedQuery.minDuration p)
  ∧ filters !! "maxDuration" = non_empty (IParsedQuery.maxDuration p).
Proof.
  intros H.
  destruct (before_status p) as [before |] eqn:B;
    [| rewrite convert_eq, B in H; discriminate H].
  destruct (before_status_fields _ _ B) as (F1 & F2 & F3 & F4).
  rewrite <- F1, <- F2, <- F3, <- F4.
  repeat split; apply (convert_lookup_ne p before filters); (assumption || discriminate).
Qed.

Lemma fields_are_copied_witness :
  let p := {| IParsedQuery.service := Some "user";
              IParsedQuery.operation := Some "";
              IParsedQuery.minDuration := Some "500ms";
              IParsedQuery.maxDuration := None;
              IParsedQuery.tags := Some [("retries", number 3 0)];
              IParsedQuery.status := Some (JString "error");
              IParsedQuery.natural_language_question := "" |} in
  let filters : gmap string string :=
    {[ "service" := "user"; "minDuration" := "500ms";
       "tags" := Text.quoted "retries='3' otel.status_code='ERROR'" ]} in
  convertParsedQueryToSearchFilters p = Ok filters
  ∧ filters !! "service" = Some "user" ∧ filters !! "operation" = None.
Proof.
  intros p filters.
  assert (H : convertParsedQueryToSearchFilters p = Ok filters)
    by (vm_compute; reflexivity).
  split; [exact H |].
  destruct (fields_are_copied p filters H) as (F1 & F2 & _).
  split; [exact F1 | exact F2].
Defined.

Lemma tag_strings_text (entries : list (string * string)) :
  tag_strings (text_tags entries) = Ok (map rendered_tag entries).
Proof.
  induction entries as [| [key value] entries IH]; [reflexivity |].
  simpl. rewrite IH. reflexivity.
Qed.

(** X15.  [convertParsedQueryToSearchFilters], lines 122 to 137: when every value of
    the tags is a text, the compilation succeeds, and the tags filter is made
    of the entries in their order, each as [key="value"], separated by one
    space, followed by the marker of the status when the status is ['error']
    or ['success']. *)
Theorem text_tags_are_rendered (p : IParsedQuery.t) (entries : list (string * string)) :
  entries ≠ [] →
  IParsedQuery.tags p = Some (text_tags entries) →
  ∃ filters,
    convertParsedQueryToSearchFilters p = Ok filters
    ∧ filters !! "tags"
      = Some (let rendered := Text.join " " (map rendered_tag entries) in
              if is_status p "error" then rendered +:+ " " +:+ ERROR_MARKER
              else if is_status p "success" then rendered +:+ " " +:+ OK_MARKER
              else rendered).
Proof.
  intros Hne Ht.
  destruct entries as [| entry entries]; [contradiction |].
  assert (B : ∃ before, before_status p = Ok before
                ∧ before !! "tags"
                  = Some (Text.join " " (map rendered_tag (entry :: entries)))).
  { unfold before_status. rewrite Ht.
    change (text_tags (entry :: entries))
      with ((entry.1, JString entry.2) :: text_tags entries).
    change ((entry.1, JString entry.2) :: text_tags entries)
      with (text_tags (entry :: entries)).
    rewrite tag_strings_text. simpl.
    eexists. split; [reflexivity | apply lookup_insert_eq]. }
  destruct B as (before & B & T).
  pose proof (well_formed_before_status _ _ B) as W.
  rewrite convert_eq, B. simpl. eexists. split; [reflexivity |].
  destruct (is_status p "error"); [| destruct (is_status p "success")];
    rewrite ?with_marker_appended by exact W;
    rewrite ?lookup_insert_eq, ?T; reflexivity.
Qed.

Lemma text_tags_are_rendered_witness :
  let entries := [("http.method", "GET"); ("http.status_code", "500")] in
  let p := bare_query (Some (text_tags entries)) "error" in
  entries ≠ []
  ∧ ∃ filters, convertParsedQueryToSearchFilters p = Ok filters
      ∧ filters !! "tags"
        = Some (Text.quoted
                  "http.method='GET' http.status_code='500' otel.status_code='ERROR'").
Proof.
  intros entries p.
  assert (H : entries ≠ []) by discriminate.
  split; [exact H |].
  exact (text_tags_are_rendered p entries H eq_refl).
Defined.

Lemma tag_strings_unprintable (pre : list (string * string)) (key : string)
    (props : list (string * JSValue)) (post : list (string * JSValue)) :
  JS.lookup_prop props "toString" ≠ None →
  tag_strings (text_tags pre ++ (key, JObject props) :: post)%list
  = Err (TypeError "Cannot convert object to primitive value").
Proof.
  intros H. induction pre as [| [k v] pre IH].
  - simpl. destruct (JS.lookup_prop props "toString"); [reflexivity | contradiction].
  - change (tag_strings (text_tags ((k, v) :: pre) ++ (key, JObject props) :: post)%list)
      with (tagStrings ← tag_strings (text_tags pre ++ (key, JObject props) :: post)%list;
            Ok ((k +:+ "=" +:+ Text.dq +:+ v +:+ Text.dq) :: tagStrings)).
    rewrite IH. reflexivity.
Qed.

(** X16.  [convertParsedQueryToSearchFilters], lines 124 to 126: the compiler can
    throw.  A tag whose value is an object with a member [toString], after
    tags whose values are texts, makes it throw a [TypeError], whatever the
    other fields and the status are: no filters are returned. *)
Theorem unprintable_tag_fails_the_compiler (p : IParsedQuery.t)
    (pre : list (string * string)) (key : string)
    (props : list (string * JSValue)) (post : list (string * JSValue)) :
  IParsedQuery.tags p = Some (text_tags pre ++ (key, JObject props) :: post)%list →
  JS.lookup_prop props "toString" ≠ None →
  convertParsedQueryToSearchFilters p
  = Err (TypeError "Cannot convert object to primitive value").
Proof.
  intros Ht Hp.
  pose proof (tag_strings_unprintable pre key props post Hp) as E.
  unfold convertParsedQueryToSearchFilters. rewrite Ht.
  destruct (text_tags pre ++ (key, JObject props) :: post)%list as [| e es] eqn:L.
  - destruct pre; discriminate L.
  - rewrite E. reflexivity.
Qed.

Lemma unprintable_tag_fails_the_compiler_witness :
  let props := [("toString", JString "x")] in
  let p := bare_query (Some (text_tags [("a", "b")] ++ [("c", JObject props)])%list) "all" in
  JS.lookup_prop props "toString" ≠ None
  ∧ convertParsedQueryToSearchFilters p
    = Err (TypeError "Cannot convert object to primitive value").
Proof.
  intros props p.
  assert (H : JS.lookup_prop props "toString" ≠ None) by discriminate.
  split; [exact H |].
  exact (unprintable_tag_fails_the_compiler p [("a", "b")] "c" props [] eq_refl H).
Defined.

(** X17.  [parseNaturalLanguageQuery] and [convertParsedQueryToSearchFilters], one
    after the other: each of the four text filters is the member of the same
    name of the payload when that member is a text that is not empty, and is
    absent in every other case (no member, an empty text, a number, an
    object, ...). *)
Theorem filters_come_from_the_payload (question model content : string)
    (payload : JSValue) (p : IParsedQuery.t) (reply : ILLMResponse.t)
    (filters : gmap string string) :
  JSON.parse (select_json content) = Ok payload →
  parse_response question (llm_reply model content) = Ok (p, reply) →
  convertParsedQueryToSearchFilters p = Ok filters →
  filters !! "service" = text_field payload "service"
  ∧ filters !! "operation" = text_field payload "operation"
  ∧ filters !! "minDuration" = text_field payload "minDuration"
  ∧ filters !! "maxDuration" = text_field payload "maxDuration".
Proof.
  intros E H C.
  unfold parse_response in H. rewrite parse_body_text, E in H.
  assert (S : p = normalized question payload)
    by (destruct payload; try discriminate H; injection H as <- _; reflexivity).
  subst p.
  destruct (before_status (normalized question payload)) as [before |] eqn:B;
    [| rewrite convert_eq, B in C; discriminate C].
  destruct (before_status_fields _ _ B) as (F1 & F2 & F3 & F4).
  assert (I : ∀ x, non_empty (non_empty x) = non_empty x)
    by (intros [[| c s] |]; reflexivity).
  unfold text_field.
  rewrite (convert_lookup_ne _ before filters "service" B C) by discriminate.
  rewrite (convert_lookup_ne _ before filters "operation" B C) by discriminate.
  rewrite (convert_lookup_ne _ before filters "minDuration" B C) by discriminate.
  rewrite (convert_lookup_ne _ before filters "maxDuration" B C) by discriminate.
  rewrite F1, F2, F3, F4. cbn [normalized IParsedQuery.service IParsedQuery.operation
    IParsedQuery.minDuration IParsedQuery.maxDuration].
  rewrite !I. repeat split.
Qed.

Lemma filters_come_from_the_payload_witness :
  let content := Text.quoted "{'service':'user','operation':42,'minDuration':''}" in
  let payload := JObject [("service", JString "user"); ("operation", number 42 0);
                          ("minDuration", JString "")] in
  let p := normalized "Show the user service" payload in
  let filters : gmap string string := {[ "service" := "user" ]} in
  JSON.parse (select_json content) = Ok payload
  ∧ parse_response "Show the user service" (llm_reply "ollama-free" content)
    = Ok (p, llm_reply "ollama-free" content)
  ∧ convertParsedQueryToSearchFilters p = Ok filters
  ∧ filters !! "operation" = None.
Proof.
  intros content payload p filters.
  assert (H1 : JSON.parse (select_json content) = Ok payload) by (vm_compute; reflexivity).
  assert (H2 : parse_response "Show the user service" (llm_reply "ollama-free" content)
               = Ok (p, llm_reply "ollama-free" content)) by (vm_compute; reflexivity).
  assert (H3 : convertParsedQueryToSearchFilters p = Ok filters)
    by (vm_compute; reflexivity).
  split; [exact H1 |]. split; [exact H2 |]. split; [exact H3 |].
  exact (proj1 (proj2 (filters_come_from_the_payload _ _ _ _ _ _ _ H1 H2 H3))).
Defined.

(** ** The other effects of the callback *)

Lemma convert_well_formed (p : IParsedQuery.t) (filters : gmap string string) :
  convertParsedQueryToSearchFilters p = Ok filters → well_formed filters.
Proof.
  rewrite convert_eq.
  destruct (before_status p) as [before |] eqn:B; simpl; [| discriminate].
  intros [= <-]. pose proof (well_formed_before_status _ _ B) as W.
  destruct (is_status p "error"); [| destruct (is_status p "success")];
    try exact W; apply well_formed_with_marker; (discriminate || exact W).
Qed.

Lemma well_formed_non_empty (filters : gmap string string) (key : string) :
  well_formed filters → non_empty (filters !! key) = filters !! key.
Proof.
  intros W. destruct (filters !! key) as [value |] eqn:E; [| reflexivity].
  destruct (W _ _ E) as [_ H]. destruct value; [contradiction | reflexivity].
Qed.

(** X18.  [handleSearch], lines 54 to 124: every run shows exactly one message.  A
    blank question gives the warning and leaves [loading] as it was; every
    other run ends with [loading] off.  A hosted model without key gives the
    request for the key and opens the settings; a failure of the gateway, of
    the extraction or of the compilation gives the message of the error, or
    the fixed text when what was thrown is not an [Error]; a success gives the
    confirmation. *)
Theorem handleSearch_reports_once (seen s : State) (env : Env) (net : Network) :
  let s' := (handleSearch seen env net s).1 in
  ∃ t, toasts s' = (toasts s ++ [t])%list
    ∧ match t with
      | Warning text =>
          blank (question seen) = true ∧ text = "Please enter a question"
          ∧ loading s' = loading s
      | Failure text =>
          blank (question seen) = false ∧ loading s' = false
          ∧ (turned_down seen = true
             ∧ text = "Please configure OpenAI API key in settings"
             ∧ showSettings s' = true
             ∨ turned_down seen = false
               ∧ ∃ error, pipeline seen net = Err error
                   ∧ text = match error with
                            | ThrownError _ message => message
                            | ThrownValue _ =>
                                "Failed to process question. Please try again."
                            end)
      | Success text =>
          turned_down seen = false ∧ is_Ok (pipeline seen net) = true
          ∧ loading s' = false
          ∧ text = "Search executed with AI-generated filters"
      end.
Proof.
  unfold handleSearch, turned_down, pipeline.
  destruct (blank (question seen)); simpl.
  { eexists. split; [reflexivity |]. simpl. auto. }
  destruct (is_openai (selectedModel seen) && Text.is_empty (apiKey seen)); simpl.
  { eexists. split; [reflexivity |]. simpl. auto 6. }
  destruct (parseNaturalLanguageQuery (question seen) (llmConfig_of seen) net start)
    as [[[parsed reply] | error] tr]; simpl.
  - destruct (convertParsedQueryToSearchFilters parsed) as [filters | error]; simpl.
    + eexists. split; [reflexivity |]. simpl. auto.
    + eexists. split; [reflexivity |]. simpl.
      split; [reflexivity |]. split; [reflexivity |]. right. eauto.
  - eexists. split; [reflexivity |]. simpl.
    split; [reflexivity |]. split; [reflexivity |]. right. eauto.
Qed.

Lemma handleSearch_trace (seen s : State) (env : Env) (net : Network) :
  (handleSearch seen env net s).2
  = if turned_down seen then start
    else (queryLLM (llmConfig_of seen) (prompt_of (question seen)) net start).2.
Proof.
  unfold handleSearch, turned_down, parseNaturalLanguageQuery, mbind, IO_bind, lift.
  fold (prompt_of (question seen)).
  destruct (blank (question seen)); simpl; [reflexivity |].
  destruct (is_openai (selectedModel seen) && Text.is_empty (apiKey seen)); simpl;
    [reflexivity |].
  destruct (queryLLM (llmConfig_of seen) (prompt_of (question seen)) net start)
    as [[reply | error] tr]; simpl; [| reflexivity].
  destruct (parse_response (question seen) reply) as [[parsed reply'] | error]; simpl;
    [| reflexivity].
  destruct (convertParsedQueryToSearchFilters parsed); reflexivity.
Qed.

(** X19.  [handleSearch], lines 55 to 79: a run that is turned down sends nothing.
    Every other run sends exactly one request, whatever the reply and the
    outcome: with a hosted model, the request of the hosted adapter with the
    key of the settings; with the local model, the request of the local
    adapter at the URL of the settings, the model being [llama2].  In both the
    prompt is the system prompt followed by the question that the callback
    saw.  With any other model nothing is sent. *)
Theorem handleSearch_requests (seen s : State) (env : Env) (net : Network) :
  let tr := (handleSearch seen env net s).2 in
  (turned_down seen = true → calls tr = [])
  ∧ (turned_down seen = false → is_hosted (selectedModel seen) →
     calls tr = [OpenAIClient.request
                   (OpenAIClient.new (apiKey seen) (openai_name (selectedModel seen)))
                   (prompt_of (question seen))])
  ∧ (turned_down seen = false → selectedModel seen = "ollama-free" →
     calls tr = [OllamaClient.request
                   {| OllamaClient.baseURL := local_base (Some (ollamaUrl seen));
                      OllamaClient.model := "llama2" |}
                   (prompt_of (question seen))])
  ∧ (¬ known_model (selectedModel seen) → calls tr = []).
Proof.
  cbv zeta. rewrite handleSearch_trace.
  split; [| split; [| split]].
  - intros ->. reflexivity.
  - intros T Hh. rewrite T.
    assert (K : apiKey seen ≠ "").
    { intros E. unfold turned_down in T. apply orb_false_iff in T as [_ T].
      rewrite E in T. destruct Hh as [Hh | Hh]; unfold is_openai in T;
        rewrite Hh in T; discriminate T. }
    assert (C : ILLMClientConfig.apiKey (llmConfig_of seen) = Some (apiKey seen))
      by (unfold llmConfig_of; simpl; destruct Hh as [-> | ->]; reflexivity).
    apply (queryLLM_sends_hosted (llmConfig_of seen) _ (apiKey seen) Hh C K net start).
  - intros T Hm. rewrite T.
    pose proof (queryLLM_sends_local (llmConfig_of seen) (prompt_of (question seen))
                  Hm net start) as S.
    rewrite S. unfold llmConfig_of, local_base. simpl. rewrite Hm. simpl.
    destruct (ollamaUrl seen); reflexivity.
  - intros Hk. destruct (turned_down seen); [reflexivity |].
    apply (queryLLM_sends_nothing (llmConfig_of seen) _ Hk net start).
Qed.

Lemma handleSearch_requests_witness :
  let seen := initial "Find errors in payment processing" "ollama-free" [] in
  turned_down seen = false ∧ selectedModel seen = "ollama-free"
  ∧ map url (calls (handleSearch seen (clock 0) unreachable seen).2)
    = ["http://localhost:11434/api/generate"].
Proof.
  intros seen.
  assert (T : turned_down seen = false) by reflexivity.
  assert (M : selectedModel seen = "ollama-free") by reflexivity.
  split; [exact T |]. split; [exact M |].
  rewrite (proj1 (proj2 (proj2 (handleSearch_requests seen seen (clock 0) unreachable)))
             T M).
  reflexivity.
Defined.

(** X20.  [handleSearch], lines 83 to 116: a run that is turned down or fails hands
    no search to [searchTraces].  A run that succeeds hands it exactly one:
    the service and the operation of the filters, or a hyphen for the one that
    is absent; the durations and the tags of the filters, absent when the
    filter is; the limit 20 and the lookback of one hour, ending at the
    current time in microseconds. *)
Theorem handleSearch_searches (seen s : State) (env : Env) (net : Network) :
  let s' := (handleSearch seen env net s).1 in
  (turned_down seen = true ∨ is_Ok (pipeline seen net) = false →
   searches s' = searches s)
  ∧ (∀ filters, turned_down seen = false → pipeline seen net = Ok filters →
     ∃ query,
       searches s' = (searches s ++ [query])%list
       ∧ SearchQuery.service query = default "-" (filters !! "service")
       ∧ SearchQuery.operation query = default "-" (filters !! "operation")
       ∧ SearchQuery.minDuration query = filters !! "minDuration"
       ∧ SearchQuery.maxDuration query = filters !! "maxDuration"
       ∧ SearchQuery.tags query = filters !! "tags"
       ∧ SearchQuery.limit query = "20"
       ∧ SearchQuery.lookback query = "1h"
       ∧ SearchQuery.start query
         = Num.toString (lookbackToTimestamp env "1h" (new_Date env))
       ∧ SearchQuery.end_ query = (new_Date env * 1000)%Z).
Proof.
  unfold handleSearch, turned_down, pipeline.
  destruct (blank (question seen)); simpl.
  { split; [reflexivity | discriminate]. }
  destruct (is_openai (selectedModel seen) && Text.is_empty (apiKey seen)); simpl.
  { split; [reflexivity | discriminate]. }
  destruct (parseNaturalLanguageQuery (question seen) (llmConfig_of seen) net start)
    as [[[parsed reply] | error] tr]; simpl.
  2: { split; [reflexivity | discriminate]. }
  destruct (convertParsedQueryToSearchFilters parsed) as [filters | error] eqn:C; simpl.
  2: { split; [reflexivity | discriminate]. }
  split; [intros [H | H]; discriminate H |].
  intros filters' _ [= <-].
  pose proof (convert_well_formed _ _ C) as W.
  exists (searchQuery_of env filters). unfold searchQuery_of; simpl.
  rewrite !(well_formed_non_empty filters) by exact W.
  repeat split.
Qed.

Lemma handleSearch_searches_witness :
  let seen := initial "Show me slow requests to the user service" "ollama-free" [] in
  let net := answering 120 slow_requests_reply in
  let filters : gmap string string := {[ "service" := "user"; "minDuration" := "500ms" ]} in
  turned_down seen = false ∧ pipeline seen net = Ok filters
  ∧ ∃ query, searches (handleSearch seen (clock 1700000000000) net seen).1 = [query]
      ∧ SearchQuery.service query = "user" ∧ SearchQuery.operation query = "-".
Proof.
  intros seen net filters.
  assert (T : turned_down seen = false) by reflexivity.
  assert (P : pipeline seen net = Ok filters) by (vm_compute; reflexivity).
  split; [exact T |]. split; [exact P |].
  destruct (proj2 (handleSearch_searches seen seen (clock 1700000000000) net) filters T P)
    as (query & Hs & H1 & H2 & _).
  exists query. split; [exact Hs |]. split; [exact H1 | exact H2].
Defined.

(** X21.  [handleSearch], lines 54 to 124: the callback never changes the question,
    the model or the settings.  A blank question leaves the parsed query as it
    was; every other run first clears it, and sets it as soon as the parser
    has returned, so that it is set also when the compilation fails after
    that. *)
Theorem handleSearch_parsedQuery (seen s : State) (env : Env) (net : Network) :
  let s' := (handleSearch seen env net s).1 in
  question s' = question s ∧ selectedModel s' = selectedModel s
  ∧ apiKey s' = apiKey s ∧ ollamaUrl s' = ollamaUrl s
  ∧ parsedQuery s'
    = if blank (question seen) then parsedQuery s
      else if turned_down seen then None
      else match (parseNaturalLanguageQuery (question seen) (llmConfig_of seen)
                    net start).1 with
           | Ok (parsed, _) => Some parsed
           | Err _ => None
           end.
Proof.
  unfold handleSearch, turned_down.
  destruct (blank (question seen)); simpl; [repeat split |].
  destruct (is_openai (selectedModel seen) && Text.is_empty (apiKey seen)); simpl;
    [repeat split |].
  destruct (parseNaturalLanguageQuery (question seen) (llmConfig_of seen) net start)
    as [[[parsed reply] | error] tr]; simpl; [| repeat split].
  destruct (convertParsedQueryToSearchFilters parsed); simpl; repeat split.
Qed.

(** X22.  The button to run the search of a history item, lines 147 to 150: the
    search that runs is the one of the question that the render saw, not the
    one of the item.  The state and the requests are those of [handleSearch]
    without the click, but for the question in the box, which becomes the
    question of the item: with a blank box the click gives the warning and
    sends nothing, and after a success the new history entry holds the
    question that was in the box. *)
Theorem runThisSearch_runs_the_question_seen (seen s : State) (item : HistoryEntry.t)
    (env : Env) (net : Network) :
  runThisSearch seen item env net s
  = (setQuestion (HistoryEntry.question item) (handleSearch seen env net s).1,
     (handleSearch seen env net s).2)
  ∧ (blank (question seen) = true →
     (runThisSearch seen item env net s).2 = start
     ∧ toasts (runThisSearch seen item env net s).1
       = (toasts s ++ [Warning "Please enter a question"])%list
     ∧ searches (runThisSearch seen item env net s).1 = searches s)
  ∧ (turned_down seen = false → is_Ok (pipeline seen net) = true →
     HistoryEntry.question <$> head (queryHistory (runThisSearch seen item env net s).1)
     = Some (question seen)).
Proof.
  unfold runThisSearch, handleSelectFromHistory, handleSearch, turned_down, pipeline.
  destruct (blank (question seen)); simpl.
  { split; [reflexivity |]. split; [intros _; repeat split | discriminate]. }
  destruct (is_openai (selectedModel seen) && Text.is_empty (apiKey seen)); simpl.
  { split; [reflexivity |]. split; discriminate. }
  destruct (parseNaturalLanguageQuery (question seen) (llmConfig_of seen) net start)
    as [[[parsed reply] | error] tr]; simpl.
  2: { split; [reflexivity |]. split; discriminate. }
  destruct (convertParsedQueryToSearchFilters parsed); simpl.
  - split; [reflexivity |]. split; [discriminate | reflexivity].
  - split; [reflexivity |]. split; discriminate.
Qed.

Lemma runThisSearch_runs_the_question_seen_witness :
  let seen := initial "" "ollama-free"
                [{| HistoryEntry.question := "Find errors in payment processing";
                    HistoryEntry.timestamp := 1700000000000 |}] in
  let item := {| HistoryEntry.question := "Find errors in payment processing";
                 HistoryEntry.timestamp := 1700000000000 |} in
  let net := answering 120 payment_errors_reply in
  blank (question seen) = true
  ∧ (runThisSearch seen item (clock 1700000060000) net seen).2 = start
  ∧ toasts (runThisSearch seen item (clock 1700000060000) net seen).1
    = [Warning "Please enter a question"].
Proof.
  intros seen item net.
  assert (B : blank (question seen) = true) by reflexivity.
  split; [exact B |].
  destruct (proj1 (proj2 (runThisSearch_runs_the_question_seen seen seen item
                            (clock 1700000060000) net)) B) as (H1 & H2 & _).
  split; [exact H1 | exact H2].
Defined.

(** X23.  [handleSearch], lines 65 to 77: with the local model selected, the key of
    the settings plays no part: neither the state nor the requests of a run
    depend on it. *)
Theorem local_search_ignores_the_key (seen s : State) (env : Env) (net : Network)
    (key : string) :
  selectedModel seen = "ollama-free" →
  handleSearch (setApiKey key seen) env net s = handleSearch seen env net s.
Proof.
  intros Hm. unfold handleSearch, setApiKey, llmConfig_of, is_openai; simpl.
  rewrite Hm. reflexivity.
Qed.

Lemma local_search_ignores_the_key_witness :
  let seen := initial "Find errors in payment processing" "ollama-free" [] in
  let net := answering 120 payment_errors_reply in
  selectedModel seen = "ollama-free"
  ∧ handleSearch (setApiKey "sk-secret" seen) (clock 0) net seen
    = handleSearch seen (clock 0) net seen.
Proof.
  intros seen net.
  assert (M : selectedModel seen = "ollama-free") by reflexivity.
  split; [exact M |].
  exact (local_search_ignores_the_key seen seen (clock 0) net "sk-secret" M).
Defined.

(** ** The settings *)

(** X24.  [handleSaveSettings] and the initial state, lines 37 to 52: the handler
    stores the key and the URL that it saw, closes the settings and shows one
    confirmation.  A component mounted after that starts with the key that
    was saved, and with the URL that was saved unless it was empty: it then
    starts with the loopback URL. *)
Theorem saved_settings_are_restored (seen s : State) (store : Settings)
    (stored : option (list HistoryEntry.t)) :
  let s' := (handleSaveSettings seen store s).1 in
  let saved := (handleSaveSettings seen store s).2 in
  apiKey (mount saved stored) = apiKey seen
  ∧ ollamaUrl (mount saved stored)
    = (if Text.is_empty (ollamaUrl seen) then "http://localhost:11434"
       else ollamaUrl seen)
  ∧ showSettings s' = false
  ∧ toasts s' = (toasts s ++ [Success "Settings saved successfully"])%list
  ∧ apiKey s' = apiKey s ∧ ollamaUrl s' = ollamaUrl s.
Proof.
  unfold handleSaveSettings, mount; simpl.
  destruct (apiKey seen), (ollamaUrl seen); repeat split.
Qed.
